(** * Video proctoring: session store, event ledger, scorer, recommendation
      engine and the face-signal debouncer.

    Shallow embedding of
    - [src/lib/database.ts]                      (module [Database]),
    - [app/api/sessions/route.ts]                (module [SessionsRoute]),
    - [app/api/sessions/[sessionId]/route.ts]    (module [SessionRoute]),
    - [app/api/events/route.ts]                  (module [EventsRoute]),
    - [app/api/reports/[sessionId]/route.ts]     (module [ReportRoute]),
    - [app/api/reports/batch/route.ts]           (module [BatchRoute]),
    - [components/video-proctoring.tsx]          (module [VideoProctoring]).

    Conventions.  A JavaScript [Map] keyed by strings is a [gmap string _];
    a [Date] and the result of [Date.now()] are integer milliseconds ([Z]);
    every read of the clock and every draw of [Math.random()] is an explicit
    argument of the operation that performs it. *)

From stdpp Require Import gmap strings list fin_maps pretty.
From Stdlib Require Import ZArith Lia Ascii Qcanon.

Local Open Scope Z_scope.

(** ** JavaScript values at the HTTP boundary *)

Module Js.

(** A value obtained from [request.json()].  Numbers are kept as integers:
    the routes only test them for truthiness and the type tag. *)
Inductive JsValue : Type :=
| JUndefined
| JNull
| JBool (b : bool)
| JNumber (n : Z)
| JString (s : string)
| JObject.

(** [!!v] *)
Definition truthy (v : JsValue) : bool :=
  match v with
  | JUndefined | JNull => false
  | JBool b => b
  | JNumber n => negb (n =? 0)
  | JString s => negb (bool_decide (s = ""))
  | JObject => true
  end.

(** [typeof v === "string"] *)
Definition is_string (v : JsValue) : bool :=
  match v with JString _ => true | _ => false end.

(** White space and line terminators of ECMAScript among the code units
    below 256 (a character of a Rocq string is one such code unit):
    TAB, LF, VT, FF, CR, SP and NBSP. *)
Definition is_white_space (c : ascii) : bool :=
  match Ascii.nat_of_ascii c with
  | 9%nat | 10%nat | 11%nat | 12%nat | 13%nat | 32%nat | 160%nat => true
  | _ => false
  end.

Fixpoint trimStart (s : string) : string :=
  match s with
  | EmptyString => EmptyString
  | String c s' => if is_white_space c then trimStart s' else s
  end.

Definition trimEnd (s : string) : string :=
  String.rev (trimStart (String.rev s)).

(** [String.prototype.trim] *)
Definition trim (s : string) : string := trimEnd (trimStart s).

(** A request body: [request.json()] either throws or yields the fields. *)
Inductive RequestBody (A : Type) : Type :=
| Malformed
| Parsed (fields : A).
Arguments Malformed {A}.
Arguments Parsed {A} fields.

(** [NextResponse.json(...)]: a success payload (status 200) or
    [{ error }] with an explicit status. *)
Inductive Response (A : Type) : Type :=
| Success (payload : A)
| Failure (status : Z) (error : string).
Arguments Success {A} payload.
Arguments Failure {A} status error.

End Js.

(** ** [src/lib/database.ts] *)

Module Database.

Inductive SessionStatus : Type := active | completed | terminated.

Inductive EventType : Type :=
  focus_loss | no_face | multiple_faces | suspicious_object.

Inductive Severity : Type := low | medium | high.

#[global] Instance SessionStatus_eq_dec : EqDecision SessionStatus.
Proof. solve_decision. Defined.
#[global] Instance EventType_eq_dec : EqDecision EventType.
Proof. solve_decision. Defined.
#[global] Instance Severity_eq_dec : EqDecision Severity.
Proof. solve_decision. Defined.

Record ProctoringSession : Type := mkSession {
  id : string;
  candidateName : string;
  startTime : Z;
  endTime : option Z;
  status : SessionStatus;
  totalEvents : Z;
  integrityScore : Z
}.

(** [Record<string, any>], kept as the list of its entries. *)
Definition Metadata : Type := list (string * string).

Record ProctoringEvent : Type := mkEvent {
  event_id : string;
  sessionId : string;
  type : EventType;
  timestamp : Z;
  description : string;
  severity : Severity;
  metadata : option Metadata
}.

(** [Omit<ProctoringEvent, "id" | "sessionId">] *)
Record EventInput : Type := mkEventInput {
  in_type : EventType;
  in_timestamp : Z;
  in_description : string;
  in_severity : Severity;
  in_metadata : option Metadata
}.

(** [Partial<ProctoringSession>]: [None] is an absent key. *)
Record SessionUpdates : Type := mkUpdates {
  u_id : option string;
  u_candidateName : option string;
  u_startTime : option Z;
  u_endTime : option Z;
  u_status : option SessionStatus;
  u_totalEvents : option Z;
  u_integrityScore : option Z
}.

Definition no_updates : SessionUpdates :=
  mkUpdates None None None None None None None.

(** The two private maps of [InMemoryDatabase]. *)
Record InMemoryDatabase : Type := mkDb {
  sessions : gmap string ProctoringSession;
  events : gmap string (list ProctoringEvent)
}.

(** [new InMemoryDatabase()] *)
Definition db0 : InMemoryDatabase := mkDb ∅ ∅.

(** [`session_${Date.now()}_${Math.random().toString(36).substr(2, 9)}`];
    [rnd] is the substring drawn from [Math.random()]. *)
Definition session_id_of (clock : Z) (rnd : string) : string :=
  "session_" +:+ pretty clock +:+ "_" +:+ rnd.

Definition event_id_of (clock : Z) (rnd : string) : string :=
  "event_" +:+ pretty clock +:+ "_" +:+ rnd.

(** [clock] is the [Date.now()] of the identifier, [date] the [new Date()]
    of [startTime]. *)
Definition createSession (candidateName : string) (clock : Z) (rnd : string)
    (date : Z) (db : InMemoryDatabase) : ProctoringSession * InMemoryDatabase :=
  let session :=
    {| id := session_id_of clock rnd;
       candidateName := candidateName;
       startTime := date;
       endTime := None;
       status := active;
       totalEvents := 0;
       integrityScore := 100 |} in
  (session,
   {| sessions := <[id session := session]> (sessions db);
      events := <[id session := []]> (events db) |}).

Definition getSession (sessionId : string) (db : InMemoryDatabase)
    : option ProctoringSession :=
  sessions db !! sessionId.

(** [{ ...session, ...updates }] *)
Definition spread (session : ProctoringSession) (updates : SessionUpdates)
    : ProctoringSession :=
  {| id := default (id session) (u_id updates);
     candidateName := default (candidateName session) (u_candidateName updates);
     startTime := default (startTime session) (u_startTime updates);
     endTime := match u_endTime updates with
                | Some t => Some t
                | None => endTime session
                end;
     status := default (status session) (u_status updates);
     totalEvents := default (totalEvents session) (u_totalEvents updates);
     integrityScore :=
       default (integrityScore session) (u_integrityScore updates) |}.

Definition updateSession (sessionId : string) (updates : SessionUpdates)
    (db : InMemoryDatabase) : option ProctoringSession * InMemoryDatabase :=
  match sessions db !! sessionId with
  | None => (None, db)
  | Some session =>
      let updatedSession := spread session updates in
      (Some updatedSession,
       {| sessions := <[sessionId := updatedSession]> (sessions db);
          events := events db |})
  end.

Definition severityWeights (s : Severity) : Z :=
  match s with low => 2 | medium => 5 | high => 10 end.

(** [sessionEvents.reduce((sum, evt) => sum + severityWeights[evt.severity], 0)] *)
Definition totalDeductions (sessionEvents : list ProctoringEvent) : Z :=
  fold_left (λ sum evt, sum + severityWeights (severity evt)) sessionEvents 0.

Definition addEvent (sessionId : string) (event : EventInput)
    (clock : Z) (rnd : string) (db : InMemoryDatabase)
    : ProctoringEvent * InMemoryDatabase :=
  let fullEvent :=
    {| event_id := event_id_of clock rnd;
       sessionId := sessionId;
       type := in_type event;
       timestamp := in_timestamp event;
       description := in_description event;
       severity := in_severity event;
       metadata := in_metadata event |} in
  let sessionEvents := default [] (events db !! sessionId) ++ [fullEvent] in
  let events' := <[sessionId := sessionEvents]> (events db) in
  let sessions' :=
    match sessions db !! sessionId with
    | Some session =>
        <[sessionId :=
            {| id := id session;
               candidateName := candidateName session;
               startTime := startTime session;
               endTime := endTime session;
               status := status session;
               totalEvents := Z.of_nat (length sessionEvents);
               integrityScore := Z.max 0 (100 - totalDeductions sessionEvents) |}]>
          (sessions db)
    | None => sessions db
    end in
  (fullEvent, {| sessions := sessions'; events := events' |}).

Definition getEvents (sessionId : string) (db : InMemoryDatabase)
    : list ProctoringEvent :=
  default [] (events db !! sessionId).

Definition getEventsByType (sessionId : string) (ty : EventType)
    (db : InMemoryDatabase) : list ProctoringEvent :=
  filter (λ event, type event = ty) (default [] (events db !! sessionId)).

(** The part of the value of [getSessionStats] that the report routes read
    to build recommendations ([duration] and [eventsPerMinute] are
    floating-point quantities derived from the clock). *)
Record EventsByType : Type := mkByType {
  n_focus_loss : Z;
  n_no_face : Z;
  n_multiple_faces : Z;
  n_suspicious_object : Z
}.

Record EventsBySeverity : Type := mkBySeverity {
  n_low : Z;
  n_medium : Z;
  n_high : Z
}.

Record SessionStats : Type := mkStats {
  session : ProctoringSession;
  stats_events : list ProctoringEvent;
  eventsByType : EventsByType;
  eventsBySeverity : EventsBySeverity
}.

Definition count_type (ty : EventType) (evs : list ProctoringEvent) : Z :=
  Z.of_nat (length (filter (λ e, type e = ty) evs)).

Definition count_severity (sv : Severity) (evs : list ProctoringEvent) : Z :=
  Z.of_nat (length (filter (λ e, severity e = sv) evs)).

Definition getSessionStats (sessionId : string) (db : InMemoryDatabase)
    : option SessionStats :=
  let events := default [] (events db !! sessionId) in
  match sessions db !! sessionId with
  | None => None
  | Some session =>
      Some {| session := session;
              stats_events := events;
              eventsByType :=
                {| n_focus_loss := count_type focus_loss events;
                   n_no_face := count_type no_face events;
                   n_multiple_faces := count_type multiple_faces events;
                   n_suspicious_object := count_type suspicious_object events |};
              eventsBySeverity :=
                {| n_low := count_severity low events;
                   n_medium := count_severity medium events;
                   n_high := count_severity high events |} |}
  end.

(** [Math.round(a / b)] for integers [a] and [b > 0]: the quotient rounded
    to the nearest integer, a tie going up.  The double [a / b] is within one
    rounding error of the exact quotient, which for an integer [a] is either a
    tie or at least [1 / (2 b)] away from one, so the rounding is the exact
    one for the magnitudes that occur (millisecond clocks, scores). *)
Definition round_div (a b : Z) : Z := (2 * a + b) / (2 * b).

(** The [duration] field of the value of [getSessionStats], in seconds;
    [clock] is the [Date.now()] read when the session has no end time. *)
Definition stats_duration (sessionId : string) (clock : Z) (db : InMemoryDatabase)
    : option Z :=
  match sessions db !! sessionId with
  | None => None
  | Some session =>
      let duration :=
        match endTime session with
        | Some e => e - startTime session
        | None => clock - startTime session
        end in
      Some (round_div duration 1000)
  end.

End Database.

(** ** [app/api/sessions/route.ts] *)

Module SessionsRoute.
Import Js Database.

(** [POST]: the body field [candidateName] is tested before it is trimmed. *)
Definition POST (body : RequestBody JsValue) (clock : Z) (rnd : string)
    (date : Z) (db : InMemoryDatabase)
    : Response ProctoringSession * InMemoryDatabase :=
  match body with
  | Malformed => (Failure 500 "Failed to create session", db)
  | Parsed candidateName =>
      if negb (truthy candidateName) || negb (is_string candidateName)
      then (Failure 400 "Candidate name is required", db)
      else
        match candidateName with
        | JString s =>
            let '(session, db') := createSession (trim s) clock rnd date db in
            (Success session, db')
        | _ => (Failure 500 "Failed to create session", db)
        end
  end.

End SessionsRoute.

(** ** [app/api/sessions/[sessionId]/route.ts] *)

Module SessionRoute.
Import Js Database.

Definition GET (sessionId : string) (db : InMemoryDatabase)
    : Response ProctoringSession :=
  match getSession sessionId db with
  | None => Failure 404 "Session not found"
  | Some session => Success session
  end.

Definition PATCH (sessionId : string) (body : RequestBody SessionUpdates)
    (db : InMemoryDatabase) : Response ProctoringSession * InMemoryDatabase :=
  match body with
  | Malformed => (Failure 500 "Failed to update session", db)
  | Parsed updates =>
      match updateSession sessionId updates db with
      | (None, db') => (Failure 404 "Session not found", db')
      | (Some session, db') => (Success session, db')
      end
  end.

End SessionRoute.

(** ** [app/api/events/route.ts] *)

Module EventsRoute.
Import Js Database.

(** The fields the handler destructures from the body; [None] is an absent
    key.  The body is the one the client builds with [JSON.stringify]:
    string-valued fields. *)
Record EventBody : Type := mkEventBody {
  b_sessionId : option string;
  b_type : option string;
  b_description : option string;
  b_severity : option string;
  b_metadata : option Metadata
}.

(** [!!s] for an optional string. *)
Definition present (s : option string) : bool :=
  match s with
  | Some s => negb (bool_decide (s = ""))
  | None => false
  end.

(** [validTypes.includes(type)], with the matching constructor. *)
Definition validTypes (s : string) : option EventType :=
  if bool_decide (s = "focus_loss") then Some focus_loss
  else if bool_decide (s = "no_face") then Some no_face
  else if bool_decide (s = "multiple_faces") then Some multiple_faces
  else if bool_decide (s = "suspicious_object") then Some suspicious_object
  else None.

(** [validSeverities.includes(severity)], with the matching constructor. *)
Definition validSeverities (s : string) : option Severity :=
  if bool_decide (s = "low") then Some low
  else if bool_decide (s = "medium") then Some medium
  else if bool_decide (s = "high") then Some high
  else None.

Definition POST (body : RequestBody EventBody) (date clock : Z) (rnd : string)
    (db : InMemoryDatabase) : Response ProctoringEvent * InMemoryDatabase :=
  match body with
  | Malformed => (Failure 500 "Failed to create event", db)
  | Parsed b =>
      if negb (present (b_sessionId b)) || negb (present (b_type b))
         || negb (present (b_description b))
      then (Failure 400 "Missing required fields: sessionId, type, description", db)
      else
        match validTypes (default "" (b_type b)) with
        | None => (Failure 400 "Invalid event type", db)
        | Some ty =>
            if present (b_severity b)
               && negb (bool_decide (is_Some (validSeverities (default "" (b_severity b)))))
            then (Failure 400 "Invalid severity level", db)
            else
              let sev :=
                if present (b_severity b)
                then default medium (validSeverities (default "" (b_severity b)))
                else medium in
              let '(event, db') :=
                addEvent (default "" (b_sessionId b))
                  {| in_type := ty;
                     in_timestamp := date;
                     in_description := default "" (b_description b);
                     in_severity := sev;
                     in_metadata := b_metadata b |}
                  clock rnd db in
              (Success event, db')
        end
  end.

(** [GET]: [sessionId] and [type] are the two query parameters. *)
Definition GET (sessionId type : option string) (db : InMemoryDatabase)
    : Response (list ProctoringEvent) :=
  if negb (present sessionId)
  then Failure 400 "sessionId parameter is required"
  else
    let sid := default "" sessionId in
    if present type
    then
      match validTypes (default "" type) with
      | Some ty => Success (getEventsByType sid ty db)
      | None =>
          (* [type as any]: no stored event carries a type outside the four *)
          Success (filter (λ _, False) (getEvents sid db))
      end
    else Success (getEvents sid db).

End EventsRoute.

(** ** [generateRecommendations], once per report route *)

Module ReportRoute.
Import Database.

(** [recommendations.push(x)] *)
Definition push (recommendations : list string) (x : string) : list string :=
  recommendations ++ [x].

Definition generateRecommendations (stats : SessionStats) : list string :=
  let recommendations := [] in
  let recommendations :=
    if integrityScore (session stats) >=? 90 then
      push recommendations
        "Excellent interview integrity maintained throughout the session."
    else if integrityScore (session stats) >=? 70 then
      push recommendations
        "Good overall performance with minor integrity concerns."
    else if integrityScore (session stats) >=? 50 then
      push recommendations
        "Moderate integrity issues detected. Review flagged events."
    else
      push recommendations
        "Significant integrity concerns. Manual review strongly recommended." in
  let recommendations :=
    if n_focus_loss (eventsByType stats) >? 3 then
      push recommendations
        "Candidate frequently lost focus. Consider environment assessment."
    else recommendations in
  let recommendations :=
    if n_suspicious_object (eventsByType stats) >? 0 then
      push recommendations
        "Suspicious objects detected. Verify candidate workspace setup."
    else recommendations in
  let recommendations :=
    if n_multiple_faces (eventsByType stats) >? 0 then
      push recommendations
        "Multiple faces detected. Investigate potential unauthorized assistance."
    else recommendations in
  let recommendations :=
    if n_high (eventsBySeverity stats) >? 2 then
      push recommendations
        "Multiple high-severity events recorded. Detailed investigation required."
    else recommendations in
  recommendations.

(** The [recommendations] field of the report built by [GET]. *)
Definition GET_recommendations (sessionId : string) (db : InMemoryDatabase)
    : Js.Response (list string) :=
  match getSessionStats sessionId db with
  | None => Js.Failure 404 "Session not found"
  | Some stats => Js.Success (generateRecommendations stats)
  end.

(** [s.padStart(2, "0")] *)
Definition padStart2 (s : string) : string :=
  match String.length s with
  | 0%nat => "00"
  | 1%nat => "0" +:+ s
  | _ => s
  end.

(** [`${Math.floor(duration / 60)}:${(duration % 60).toString().padStart(2, "0")}`]
    for a whole number of seconds; [%] is the remainder that takes the sign
    of the dividend. *)
Definition format_duration (duration : Z) : string :=
  pretty (duration / 60) +:+ ":" +:+ padStart2 (pretty (Z.rem duration 60)).

(** One entry of [timeline]. *)
Record TimelineEntry : Type := mkEntry {
  tl_timestamp : Z;
  tl_type : EventType;
  tl_description : string;
  tl_severity : Severity
}.

Record Summary : Type := mkSummary {
  sum_candidateName : string;
  sum_duration : string;
  sum_totalEvents : Z;
  sum_integrityScore : Z;
  sum_status : SessionStatus
}.

(** The report object of the two report routes, without the floating-point
    field [metadata.eventsPerMinute]. *)
Record Report : Type := mkReport {
  rep_session : ProctoringSession;
  rep_summary : Summary;
  rep_byType : EventsByType;
  rep_bySeverity : EventsBySeverity;
  rep_timeline : list TimelineEntry;
  rep_recommendations : list string;
  rep_generatedAt : Z
}.

(** [GET]: [clock] is the [Date.now()] read by [getSessionStats],
    [generatedAt] the [new Date()] of the metadata. *)
Definition GET (sessionId : string) (clock generatedAt : Z)
    (db : InMemoryDatabase) : Js.Response Report :=
  match getSessionStats sessionId db, stats_duration sessionId clock db with
  | Some stats, Some duration =>
      Js.Success
        {| rep_session := session stats;
           rep_summary :=
             {| sum_candidateName := candidateName (session stats);
                sum_duration := format_duration duration;
                sum_totalEvents := Z.of_nat (length (stats_events stats));
                sum_integrityScore := integrityScore (session stats);
                sum_status := status (session stats) |};
           rep_byType := eventsByType stats;
           rep_bySeverity := eventsBySeverity stats;
           rep_timeline :=
             map (λ event,
                    {| tl_timestamp := timestamp event;
                       tl_type := type event;
                       tl_description := description event;
                       tl_severity := severity event |})
                 (stats_events stats);
           rep_recommendations := generateRecommendations stats;
           rep_generatedAt := generatedAt |}
  | _, _ => Js.Failure 404 "Session not found"
  end.

End ReportRoute.

Module BatchRoute.
Import Database.

Definition push (recommendations : list string) (x : string) : list string :=
  recommendations ++ [x].

Definition generateRecommendations (stats : SessionStats) : list string :=
  let recommendations := [] in
  let recommendations :=
    if integrityScore (session stats) >=? 90 then
      push recommendations
        "Excellent interview integrity maintained throughout the session."
    else if integrityScore (session stats) >=? 70 then
      push recommendations
        "Good overall performance with minor integrity concerns."
    else if integrityScore (session stats) >=? 50 then
      push recommendations
        "Moderate integrity issues detected. Review flagged events."
    else
      push recommendations
        "Significant integrity concerns. Manual review strongly recommended." in
  let recommendations :=
    if n_focus_loss (eventsByType stats) >? 3 then
      push recommendations
        "Candidate frequently lost focus. Consider environment assessment."
    else recommendations in
  let recommendations :=
    if n_suspicious_object (eventsByType stats) >? 0 then
      push recommendations
        "Suspicious objects detected. Verify candidate workspace setup."
    else recommendations in
  let recommendations :=
    if n_multiple_faces (eventsByType stats) >? 0 then
      push recommendations
        "Multiple faces detected. Investigate potential unauthorized assistance."
    else recommendations in
  let recommendations :=
    if n_high (eventsBySeverity stats) >? 2 then
      push recommendations
        "Multiple high-severity events recorded. Detailed investigation required."
    else recommendations in
  recommendations.

(** The report pushed for one session identifier of the request, if it
    names a session. *)
Definition report_of (sessionId : string) (clock generatedAt : Z)
    (db : InMemoryDatabase) : option ReportRoute.Report :=
  match getSessionStats sessionId db, stats_duration sessionId clock db with
  | Some stats, Some duration =>
      Some
        {| ReportRoute.rep_session := session stats;
           ReportRoute.rep_summary :=
             {| ReportRoute.sum_candidateName := candidateName (session stats);
                ReportRoute.sum_duration :=
                  pretty (duration / 60) +:+ ":"
                  +:+ ReportRoute.padStart2 (pretty (Z.rem duration 60));
                ReportRoute.sum_totalEvents :=
                  Z.of_nat (length (stats_events stats));
                ReportRoute.sum_integrityScore := integrityScore (session stats);
                ReportRoute.sum_status := status (session stats) |};
           ReportRoute.rep_byType := eventsByType stats;
           ReportRoute.rep_bySeverity := eventsBySeverity stats;
           ReportRoute.rep_timeline :=
             map (λ event,
                    {| ReportRoute.tl_timestamp := timestamp event;
                       ReportRoute.tl_type := type event;
                       ReportRoute.tl_description := description event;
                       ReportRoute.tl_severity := severity event |})
                 (stats_events stats);
           ReportRoute.rep_recommendations := generateRecommendations stats;
           ReportRoute.rep_generatedAt := generatedAt |}
  | _, _ => None
  end.

(** The [for] loop over [sessionIds]: iteration [i] reads the clock values
    [clock i] and [generatedAt i]; [reports] is the array built so far. *)
Fixpoint collect (i : nat) (sessionIds : list string) (clock generatedAt : nat → Z)
    (db : InMemoryDatabase) (reports : list ReportRoute.Report)
    : list ReportRoute.Report :=
  match sessionIds with
  | [] => reports
  | sessionId :: rest =>
      let reports :=
        match report_of sessionId (clock i) (generatedAt i) db with
        | Some report => reports ++ [report]
        | None => reports
        end in
      collect (S i) rest clock generatedAt db reports
  end.

(** [POST] up to the rendering of the collected reports: [sessionIds] is
    [None] when the body field is missing or not an array.  The success
    payload is the list of reports handed to [ReportGenerator]. *)
Definition POST (body : Js.RequestBody (option (list string)))
    (clock generatedAt : nat → Z) (db : InMemoryDatabase)
    : Js.Response (list ReportRoute.Report) :=
  match body with
  | Js.Malformed => Js.Failure 500 "Failed to generate batch report"
  | Js.Parsed None => Js.Failure 400 "Session IDs array is required"
  | Js.Parsed (Some sessionIds) =>
      if bool_decide (length sessionIds = 0%nat)
      then Js.Failure 400 "Session IDs array is required"
      else
        let reports := collect 0 sessionIds clock generatedAt db [] in
        if bool_decide (length reports = 0%nat)
        then Js.Failure 404 "No valid sessions found"
        else Js.Success reports
  end.

End BatchRoute.

(** ** [lib/report-generator.tsx]: the batch summary *)

Module ReportGenerator.
Import Database ReportRoute.

(** The text of a status in a template literal. *)
Definition status_text (st : SessionStatus) : string :=
  match st with
  | active => "active"
  | completed => "completed"
  | terminated => "terminated"
  end.

Definition totalSessions (reports : list Report) : Z :=
  Z.of_nat (length reports).

Definition completedSessions (reports : list Report) : Z :=
  Z.of_nat (length (filter (λ r, status (rep_session r) = completed) reports)).

(** [reports.reduce((sum, r) => sum + r.session.integrityScore, 0)] *)
Definition scoreSum (reports : list Report) : Z :=
  fold_left (λ sum r, sum + integrityScore (rep_session r)) reports 0.

Definition averageScore (reports : list Report) : Z :=
  if totalSessions reports >? 0
  then round_div (scoreSum reports) (totalSessions reports)
  else 0.

Definition totalEventsAll (reports : list Report) : Z :=
  fold_left (λ sum r, sum + totalEvents (rep_session r)) reports 0.

Definition highRiskSessions (reports : list Report) : Z :=
  Z.of_nat (length (filter (λ r, integrityScore (rep_session r) < 70) reports)).

(** The row pushed for one report under "SESSION DETAILS". *)
Definition detail_row (report : Report) : string :=
  candidateName (rep_session report) +:+ "," +:+ id (rep_session report)
  +:+ "," +:+ pretty (integrityScore (rep_session report)) +:+ "%,"
  +:+ pretty (totalEvents (rep_session report)) +:+ ","
  +:+ status_text (status (rep_session report)) +:+ ","
  +:+ sum_duration (rep_summary report).

(** [csvRows] at the end of [generateSummaryReport]; [generatedAt] is the
    text of [new Date().toLocaleString()]. *)
Definition summary_rows (reports : list Report) (generatedAt : string)
    : list string :=
  ["PROCTORING SYSTEM SUMMARY REPORT";
   "";
   "OVERVIEW STATISTICS";
   "Total Sessions," +:+ pretty (totalSessions reports);
   "Completed Sessions," +:+ pretty (completedSessions reports);
   "Average Integrity Score," +:+ pretty (averageScore reports) +:+ "%";
   "Total Events Across All Sessions," +:+ pretty (totalEventsAll reports);
   "High Risk Sessions (Score < 70%)," +:+ pretty (highRiskSessions reports);
   "";
   "SESSION DETAILS";
   "Candidate Name,Session ID,Integrity Score,Total Events,Status,Duration"]
  ++ map detail_row reports
  ++ [""; "Generated At," +:+ generatedAt].

(** [rows.join(sep)] *)
Fixpoint join (sep : string) (rows : list string) : string :=
  match rows with
  | [] => ""
  | [row] => row
  | row :: rest => row +:+ sep +:+ join sep rest
  end.

Definition generateSummaryReport (reports : list Report) (generatedAt : string)
    : string :=
  join (String "010" EmptyString) (summary_rows reports generatedAt).

End ReportGenerator.

(** ** [components/object-detection.tsx]: the suspicious-object filter *)

Module ObjectDetection.

(** A prediction; the confidence is the value of the double, the bounding
    box is carried along. *)
Record DetectedObject : Type := mkObject {
  class : string;
  obj_confidence : Qc;
  bbox : Qc * Qc * Qc * Qc
}.

Definition SUSPICIOUS_CLASSES : list string :=
  ["cell phone"; "book"; "laptop"; "keyboard"; "mouse"; "remote"; "scissors";
   "teddy bear"; "bottle"; "cup"].

(** [String.prototype.toLowerCase] on code units below 256: the letters A-Z
    and the capital letters of Latin-1 (192-222 except the sign 215) move up
    by 32. *)
Definition lower_char (c : ascii) : ascii :=
  let n := Ascii.nat_of_ascii c in
  if ((65 <=? n) && (n <=? 90))%nat
     || ((192 <=? n) && (n <=? 222) && negb (n =? 215))%nat
  then Ascii.ascii_of_nat (n + 32)
  else c.

Fixpoint toLowerCase (s : string) : string :=
  match s with
  | EmptyString => EmptyString
  | String c s' => String (lower_char c) (toLowerCase s')
  end.

(** [SUSPICIOUS_CLASSES.includes(obj.class.toLowerCase()) && obj.confidence > 0.5] *)
Definition is_suspicious (obj : DetectedObject) : bool :=
  bool_decide (toLowerCase (class obj) ∈ SUSPICIOUS_CLASSES)
  && bool_decide (Q2Qc (QArith_base.Qmake 1 2) < obj_confidence obj)%Qc.

(** [objects.filter(...)] in [detectObjects]. *)
Definition suspiciousObjects (objects : list DetectedObject)
    : list DetectedObject :=
  filter (λ obj, is_suspicious obj = true) objects.

End ObjectDetection.

(** ** [components/video-proctoring.tsx]: the face-signal debouncer *)

Module VideoProctoring.
Import Database.

(** The argument of [handleFaceDetection]. *)
Record FaceDetectionResult : Type := mkResult {
  faceCount : Z;
  isLookingAway : bool;
  confidence : Qc
}.

(** The state [faceDetectionStats]. *)
Record FaceDetectionStats : Type := mkFaceStats {
  currentFaces : Z;
  wasLookingAway : bool;        (* field [isLookingAway] of the state *)
  lastConfidence : Qc;          (* field [confidence] of the state *)
  lastFaceTime : Z;
  lookAwayStartTime : option Z
}.

(** One call [addEvent(type, description, severity)]. *)
Record Emission : Type := mkEmission {
  em_type : EventType;
  em_description : string;
  em_severity : Severity
}.

#[global] Instance Emission_eq_dec : EqDecision Emission.
Proof. solve_decision. Defined.

(** [useState] initial value and the reset in [startRecording];
    [mount] is the [Date.now()] read there. *)
Definition initialStats (mount : Z) : FaceDetectionStats :=
  {| currentFaces := 0;
     wasLookingAway := false;
     lastConfidence := 0%Qc;
     lastFaceTime := mount;
     lookAwayStartTime := None |}.

(** [`${result.faceCount} faces detected in frame`]; the count is an
    array length, printed in decimal. *)
Definition faces_description (faceCount : Z) : string :=
  pretty faceCount +:+ " faces detected in frame".

(** The updater passed to [setFaceDetectionStats], with [now] the
    [Date.now()] read on entry.  The result pairs the new state with the
    [addEvent] calls made, in program order. *)
Definition handleFaceDetection (now : Z) (result : FaceDetectionResult)
    (prev : FaceDetectionStats) : FaceDetectionStats * list Emission :=
  let newStart :=
    if isLookingAway result && negb (wasLookingAway prev) then Some now
    else if negb (isLookingAway result) then None
    else lookAwayStartTime prev in
  let newLastFace :=
    if faceCount result >? 0 then now else lastFaceTime prev in
  let calls := [] in
  (* Check for no face detection (>10 seconds) *)
  let calls :=
    if (faceCount result =? 0) && (now - lastFaceTime prev >? 10000)
    then calls ++ [mkEmission no_face
                     "No face detected for more than 10 seconds" high]
    else calls in
  (* Check for multiple faces *)
  let calls :=
    if faceCount result >? 1
    then calls ++ [mkEmission multiple_faces
                     (faces_description (faceCount result)) high]
    else calls in
  (* Check for looking away (>5 seconds) *)
  let fires :=
    match newStart with
    | Some t => negb (t =? 0) && (now - t >? 5000)
    | None => false
    end in
  let calls :=
    if fires
    then calls ++ [mkEmission focus_loss
                     "Candidate looked away from screen for more than 5 seconds"
                     medium]
    else calls in
  (* Reset the timer to avoid repeated events *)
  let newStart := if fires then Some now else newStart in
  ({| currentFaces := faceCount result;
      wasLookingAway := isLookingAway result;
      lastConfidence := confidence result;
      lastFaceTime := newLastFace;
      lookAwayStartTime := newStart |},
   calls).

(** A tick: the clock value read by the handler and the sample. *)
Definition Tick : Type := Z * FaceDetectionResult.

(** Successive invocations of the handler; the calls are concatenated. *)
Fixpoint run (ticks : list Tick) (st : FaceDetectionStats)
    : FaceDetectionStats * list Emission :=
  match ticks with
  | [] => (st, [])
  | (now, result) :: rest =>
      let '(st', calls) := handleFaceDetection now result st in
      let '(st'', calls') := run rest st' in
      (st'', calls ++ calls')
  end.

(** Ticks spaced exactly [period] ms apart, the first at [t0]. *)
Fixpoint sampled (t0 period : Z) (results : list FaceDetectionResult)
    : list Tick :=
  match results with
  | [] => []
  | r :: rest => (t0, r) :: sampled (t0 + period) period rest
  end.

(** The calls of one event type, in order, and their number. *)
Definition calls_of (ty : EventType) (calls : list Emission) : list Emission :=
  filter (λ c, em_type c = ty) calls.

Definition count_of (ty : EventType) (calls : list Emission) : nat :=
  length (calls_of ty calls).

(** The calls of a run, each with the clock value of the tick that made it. *)
Fixpoint run_timed (ticks : list Tick) (st : FaceDetectionStats)
    : list (Z * Emission) :=
  match ticks with
  | [] => []
  | (now, result) :: rest =>
      map (λ c, (now, c)) (handleFaceDetection now result st).2
      ++ run_timed rest (handleFaceDetection now result st).1
  end.

(** The clock values at which a run makes a call of one event type. *)
Definition times_of (ty : EventType) (timed : list (Z * Emission)) : list Z :=
  map fst (filter (λ tc : Z * Emission, em_type tc.2 = ty) timed).

(** The state [objectDetectionStats]. *)
Record ObjectDetectionStats : Type := mkObjectStats {
  currentObjects : list string;
  suspiciousCount : Z;
  lastDetectionTime : Z
}.

(** The argument of [handleObjectDetection]. *)
Record ObjectDetectionResult : Type := mkObjectResult {
  objects : list ObjectDetection.DetectedObject;
  suspiciousObjects : list ObjectDetection.DetectedObject
}.

Section ObjectHandler.

(** [Math.round(confidence * 100)], a computation on doubles. *)
Variable percent : Qc → Z.

(** [`${obj.class} detected (${Math.round(obj.confidence * 100)}% confidence)`] *)
Definition object_description (obj : ObjectDetection.DetectedObject) : string :=
  ObjectDetection.class obj +:+ " detected ("
  +:+ pretty (percent (ObjectDetection.obj_confidence obj)) +:+ "% confidence)".

(** The updater passed to [setObjectDetectionStats], with the [addEvent]
    calls of its [forEach] in order. *)
Definition handleObjectDetection (now : Z) (result : ObjectDetectionResult)
    (prev : ObjectDetectionStats) : ObjectDetectionStats * list Emission :=
  let currentObjects := map ObjectDetection.class (objects result) in
  let suspiciousCount := Z.of_nat (length (suspiciousObjects result)) in
  let calls :=
    fold_left
      (λ calls obj,
         calls ++ [mkEmission suspicious_object (object_description obj) high])
      (suspiciousObjects result) [] in
  ({| currentObjects := currentObjects;
      suspiciousCount := suspiciousCount;
      lastDetectionTime := now |},
   calls).

(** One poll of [detectObjects]: the predictions are filtered and handed to
    the handler. *)
Definition detectObjects (now : Z) (predictions : list ObjectDetection.DetectedObject)
    (prev : ObjectDetectionStats) : ObjectDetectionStats * list Emission :=
  handleObjectDetection now
    {| objects := predictions;
       suspiciousObjects := ObjectDetection.suspiciousObjects predictions |}
    prev.

End ObjectHandler.

End VideoProctoring.

(** ** [components/face-detection.tsx]: the fallback detector *)

Module FaceDetection.
Import VideoProctoring.

(** One pixel of [imageData.data]: the red, green and blue bytes. *)
Record Pixel : Type := mkPixel {
  red : Z;
  green : Z;
  blue : Z
}.

(** The skin-tone test of the loop body. *)
Definition is_skin (p : Pixel) : bool :=
  let r := red p in
  let g := green p in
  let b := blue p in
  (r >? 95) && (g >? 40) && (b >? 20)
  && (Z.max r (Z.max g b) - Z.min r (Z.min g b) >? 15)
  && (Z.abs (r - g) >? 15) && (r >? g) && (r >? b).

(** [skinPixels / totalPixels] as the exact quotient.  The canvas is never
    empty (its size falls back to 640 x 480); the thresholds 0.02, 0.01 and
    0.015 are compared as 1/50, 1/100 and 3/200, which decides the same for
    every image of fewer than 2^40 pixels. *)
Definition skinRatio (data : list Pixel) : Qc :=
  Q2Qc (QArith_base.Qmake
          (Z.of_nat (length (filter (λ p, is_skin p = true) data)))
          (Z.to_pos (Z.of_nat (length data)))).

Definition simpleFaceDetection (data : list Pixel) : FaceDetectionResult :=
  let ratio := skinRatio data in
  let faceCount :=
    if bool_decide (Q2Qc (QArith_base.Qmake 1 50) < ratio)%Qc then 1 else 0 in
  let confidence :=
    if bool_decide (ratio * Q2Qc (QArith_base.Qmake 10 1) < 1)%Qc
    then (ratio * Q2Qc (QArith_base.Qmake 10 1))%Qc
    else 1%Qc in
  let isLookingAway :=
    bool_decide (Q2Qc (QArith_base.Qmake 1 100) < ratio)%Qc
    && bool_decide (ratio < Q2Qc (QArith_base.Qmake 3 200))%Qc in
  {| faceCount := faceCount;
     isLookingAway := isLookingAway;
     confidence := confidence |}.

End FaceDetection.

(** ** [components/proctoring-dashboard.tsx]: the duration column *)

Module Dashboard.

(** [Math.floor((end.getTime() - start.getTime()) / 1000)], with [clock]
    the [new Date()] taken when the session has no end time. *)
Definition duration_seconds (startTime : Z) (endTime : option Z) (clock : Z) : Z :=
  let end_ := match endTime with Some e => e | None => clock end in
  (end_ - startTime) / 1000.

(** The text built from the whole seconds. *)
Definition format_seconds (duration : Z) : string :=
  let hours := duration / 3600 in
  let minutes := Z.rem duration 3600 / 60 in
  let seconds := Z.rem duration 60 in
  if hours >? 0
  then pretty hours +:+ ":" +:+ ReportRoute.padStart2 (pretty minutes)
       +:+ ":" +:+ ReportRoute.padStart2 (pretty seconds)
  else pretty minutes +:+ ":" +:+ ReportRoute.padStart2 (pretty seconds).

Definition formatDuration (startTime : Z) (endTime : option Z) (clock : Z)
    : string :=
  format_seconds (duration_seconds startTime endTime clock).

End Dashboard.

(** ** [components/session-report.tsx]: the label of the score *)

Module SessionReport.

Definition integrity_label (integrityScore : Z) : string :=
  if integrityScore >=? 90 then "Excellent Integrity"
  else if integrityScore >=? 70 then "Good Integrity"
  else if integrityScore >=? 50 then "Moderate Concerns"
  else "Significant Issues".

Definition getIntegrityScoreColor (score : Z) : string :=
  if score >=? 90 then "text-green-600"
  else if score >=? 70 then "text-yellow-600"
  else "text-red-600".

End SessionReport.

(** ** Specification-side notions the claims are stated with *)

Module Spec.
Import Database.

(** weight(low) = 2, weight(medium) = 5, weight(high) = 10 *)
Definition weight (s : Severity) : Z :=
  match s with low => 2 | medium => 5 | high => 10 end.

(** Σ weight(severity) over a ledger *)
Definition deductions (ledger : list ProctoringEvent) : Z :=
  foldr (λ e total, weight (severity e) + total) 0 ledger.

(** score(events) = max(0, 100 - Σ weight(severity)) *)
Definition score (ledger : list ProctoringEvent) : Z :=
  Z.max 0 (100 - deductions ledger).

(** Two session records that differ at most in the derived fields. *)
Definition same_description (s s' : ProctoringSession) : Prop :=
  id s' = id s ∧ candidateName s' = candidateName s ∧
  startTime s' = startTime s ∧ endTime s' = endTime s ∧
  status s' = status s.

(** The cache invariant: the derived fields of every stored session are
    the ones recomputed from its ledger. *)
Definition cache_invariant (db : InMemoryDatabase) : Prop :=
  ∀ sid s, getSession sid db = Some s →
    integrityScore s = score (getEvents sid db) ∧
    totalEvents s = Z.of_nat (length (getEvents sid db)).

(** Tier message keyed by the score band. *)
Definition tier_message (score : Z) : string :=
  if decide (90 ≤ score)
  then "Excellent interview integrity maintained throughout the session."
  else if decide (70 ≤ score)
  then "Good overall performance with minor integrity concerns."
  else if decide (50 ≤ score)
  then "Moderate integrity issues detected. Review flagged events."
  else "Significant integrity concerns. Manual review strongly recommended.".

(** A conditional advisory: the line when the condition holds, else nothing. *)
Definition advisory (P : Prop) `{Decision P} (line : string) : list string :=
  if decide P then [line] else [].

(** recommend(score, eventsByType, eventsBySeverity) *)
Definition recommend (score : Z) (byType : EventsByType)
    (bySeverity : EventsBySeverity) : list string :=
  [tier_message score]
  ++ advisory (3 < n_focus_loss byType)
       "Candidate frequently lost focus. Consider environment assessment."
  ++ advisory (0 < n_suspicious_object byType)
       "Suspicious objects detected. Verify candidate workspace setup."
  ++ advisory (0 < n_multiple_faces byType)
       "Multiple faces detected. Investigate potential unauthorized assistance."
  ++ advisory (2 < n_high bySeverity)
       "Multiple high-severity events recorded. Detailed investigation required.".

(** A string without the separator of identifiers. *)
Fixpoint no_underscore (s : string) : Prop :=
  match s with
  | EmptyString => True
  | String c s' => c ≠ "_"%char ∧ no_underscore s'
  end.

(** The (clock, random) draw already stands behind an identifier of the
    ledger. *)
Definition drawn (clock : Z) (rnd : string) (ledger : list ProctoringEvent)
    : Prop :=
  event_id_of clock rnd ∈ event_id <$> ledger.

(** A request body that passes the three validation steps of the events
    [POST]. *)
Definition well_formed (b : EventsRoute.EventBody) : Prop :=
  EventsRoute.present (EventsRoute.b_sessionId b) = true ∧
  EventsRoute.present (EventsRoute.b_description b) = true ∧
  (∃ t ty, EventsRoute.b_type b = Some t ∧ EventsRoute.validTypes t = Some ty) ∧
  (EventsRoute.present (EventsRoute.b_severity b) = false ∨
   ∃ v sv, EventsRoute.b_severity b = Some v ∧
           EventsRoute.validSeverities v = Some sv).

End Spec.

(** ** Histories of store operations *)

Module Trace.
Import Database.

(** One call on the singleton [db], with the clock and random draws it
    consumes. *)
Inductive Op : Type :=
| CreateSession (candidateName : string) (clock : Z) (rnd : string) (date : Z)
| UpdateSession (sessionId : string) (updates : SessionUpdates)
| AddEvent (sessionId : string) (event : EventInput) (clock : Z) (rnd : string).

Definition exec (op : Op) (db : InMemoryDatabase) : InMemoryDatabase :=
  match op with
  | CreateSession name clock rnd date => (createSession name clock rnd date db).2
  | UpdateSession sid updates => (updateSession sid updates db).2
  | AddEvent sid event clock rnd => (addEvent sid event clock rnd db).2
  end.

(** The calls of a history, oldest first. *)
Definition run (ops : list Op) (db : InMemoryDatabase) : InMemoryDatabase :=
  fold_left (λ db op, exec op db) ops db.

(** The events that the [addEvent] calls of a history return for one
    session identifier, oldest first. *)
Fixpoint appended (sid : string) (ops : list Op) : list ProctoringEvent :=
  match ops with
  | [] => []
  | AddEvent sid' event clock rnd :: rest =>
      if decide (sid' = sid)
      then (addEvent sid' event clock rnd db0).1 :: appended sid rest
      else appended sid rest
  | _ :: rest => appended sid rest
  end.

(** An operation that does not write the derived fields directly. *)
Definition derived_untouched (op : Op) : Prop :=
  match op with
  | UpdateSession _ updates =>
      u_totalEvents updates = None ∧ u_integrityScore updates = None
  | _ => True
  end.

End Trace.

(** ** Notions used to state further properties *)

Module Derived.
Import Database.



(** The four event types and the three severities. *)
Definition all_types : list EventType :=
  [focus_loss; no_face; multiple_faces; suspicious_object].

(** A string in which the character [c] does not occur. *)
Fixpoint avoids (c : ascii) (s : string) : Prop :=
  match s with
  | EmptyString => True
  | String a s' => a ≠ c ∧ avoids c s'
  end.

(** Clock values that are more than [gap] apart from one another and from
    [last], when there is one. *)
Fixpoint spaced (gap : Z) (last : option Z) (times : list Z) : Prop :=
  match times with
  | [] => True
  | t :: rest =>
      match last with
      | Some l => gap < t - l
      | None => True
      end ∧ spaced gap (Some t) rest
  end.

(** Ticks whose clock values never go back, starting no earlier than [from]. *)
Fixpoint clock_monotone (from : Z) (ticks : list VideoProctoring.Tick) : Prop :=
  match ticks with
  | [] => True
  | (now, _) :: rest => from ≤ now ∧ clock_monotone now rest
  end.

(** The first and the last character of a string, and strings made of
    white space only. *)
Definition first_char (s : string) : option ascii :=
  match s with
  | EmptyString => None
  | String c _ => Some c
  end.

Fixpoint last_char (s : string) : option ascii :=
  match s with
  | EmptyString => None
  | String c EmptyString => Some c
  | String _ s' => last_char s'
  end.

Fixpoint all_white (s : string) : Prop :=
  match s with
  | EmptyString => True
  | String c s' => Js.is_white_space c = true ∧ all_white s'
  end.

End Derived.

(** ** Concrete stores, requests and samples used in examples *)

Module Examples.
Import Js Database VideoProctoring.

(** The store after one [POST /api/sessions] for "Jane Doe". *)
Definition jane_id : string := "session_1700000000000_k3j9x2abc".

Definition jane : ProctoringSession :=
  {| id := jane_id;
     candidateName := "Jane Doe";
     startTime := 1700000000000;
     endTime := None;
     status := active;
     totalEvents := 0;
     integrityScore := 100 |}.

Definition jane_db : InMemoryDatabase :=
  (createSession "Jane Doe" 1700000000000 "k3j9x2abc" 1700000000000 db0).2.

Definition absence : EventInput :=
  {| in_type := no_face;
     in_timestamp := 1700000011000;
     in_description := "No face detected for more than 10 seconds";
     in_severity := high;
     in_metadata := None |}.

(** A well-formed event request naming a session nobody created. *)
Definition ghost_body : EventsRoute.EventBody :=
  {| EventsRoute.b_sessionId := Some "ghost";
     EventsRoute.b_type := Some "no_face";
     EventsRoute.b_description := Some "No face detected for more than 10 seconds";
     EventsRoute.b_severity := Some "high";
     EventsRoute.b_metadata := None |}.

Definition ghost_event : ProctoringEvent :=
  {| event_id := "event_1700000011000_q1w2e3r4t";
     sessionId := "ghost";
     type := no_face;
     timestamp := 1700000011000;
     description := "No face detected for more than 10 seconds";
     severity := high;
     metadata := None |}.

(** [{ status: "completed" }], [{ status: "terminated" }] and
    [{ integrityScore: 0 }] as [PATCH] bodies. *)
Definition complete : SessionUpdates :=
  mkUpdates None None None (Some 1700000600000) (Some completed) None None.

Definition terminate : SessionUpdates :=
  mkUpdates None None None None (Some terminated) None None.

Definition zero_score : SessionUpdates :=
  mkUpdates None None None None None None (Some 0).

(** A sample with one face, gaze away from the screen. *)
Definition away : FaceDetectionResult := mkResult 1 true (Q2Qc (QArith_base.Qmake 4 5)).

(** A sample with one face, gaze on the screen. *)
Definition nominal : FaceDetectionResult := mkResult 1 false (Q2Qc (QArith_base.Qmake 4 5)).

(** A sample with no face. *)
Definition nobody : FaceDetectionResult := mkResult 0 false 0%Qc.

(** A sample with three faces. *)
Definition crowd : FaceDetectionResult := mkResult 3 false (Q2Qc (QArith_base.Qmake 4 5)).

End Examples.

Import Js Database VideoProctoring.

(** Case analysis on every comparison of the handler, with the outcome
    recorded as an (in)equation usable by [lia]. *)
Ltac handler_cases :=
  repeat match goal with
    | |- context [?a =? ?b] =>
        destruct (Z.eqb_spec a b)
    | |- context [?a >? ?b] =>
        let H := fresh "Hgt" in
        destruct (a >? b) eqn:H;
        [apply Z.gtb_lt in H | rewrite Z.gtb_ltb in H; apply Z.ltb_ge in H]
    end.

#[local] Arguments addEvent : simpl never.
#[local] Arguments createSession : simpl never.
#[local] Arguments updateSession : simpl never.

(** * Properties *)

(** ** Scoring (C1) *)

Lemma fold_deductions (evs : list ProctoringEvent) (acc : Z) :
  fold_left (λ sum evt, sum + severityWeights (severity evt)) evs acc
  = acc + Spec.deductions evs.
Proof.
  revert acc. induction evs as [|e evs IH]; intros acc; simpl.
  - lia.
  - rewrite IH. unfold Spec.weight, severityWeights.
    destruct (severity e); lia.
Qed.

Lemma totalDeductions_spec (evs : list ProctoringEvent) :
  totalDeductions evs = Spec.deductions evs.
Proof. unfold totalDeductions. rewrite fold_deductions. lia. Qed.

Lemma score_range (evs : list ProctoringEvent) : 0 ≤ Spec.score evs ≤ 100.
Proof.
  assert (0 ≤ Spec.deductions evs) as Hpos.
  { induction evs as [|e evs IH]; simpl; [lia|].
    unfold Spec.weight. destruct (severity e); lia. }
  unfold Spec.score. lia.
Qed.

Lemma addEvent_ledger sid ev clock rnd db :
  getEvents sid (addEvent sid ev clock rnd db).2
  = getEvents sid db ++ [(addEvent sid ev clock rnd db).1].
Proof. unfold getEvents, addEvent. simpl. by rewrite lookup_insert_eq. Qed.

Lemma addEvent_ledger_other sid sid' ev clock rnd db :
  sid ≠ sid' →
  getEvents sid' (addEvent sid ev clock rnd db).2 = getEvents sid' db.
Proof.
  intros Hne. unfold getEvents, addEvent. simpl.
  by rewrite lookup_insert_ne.
Qed.

Lemma addEvent_session_present sid ev clock rnd db s :
  getSession sid db = Some s →
  getSession sid (addEvent sid ev clock rnd db).2
  = Some {| id := id s;
            candidateName := candidateName s;
            startTime := startTime s;
            endTime := endTime s;
            status := status s;
            totalEvents :=
              Z.of_nat (length (getEvents sid (addEvent sid ev clock rnd db).2));
            integrityScore :=
              Spec.score (getEvents sid (addEvent sid ev clock rnd db).2) |}.
Proof.
  intros Hs. rewrite addEvent_ledger.
  unfold getSession in *. unfold addEvent at 1. simpl. rewrite Hs.
  rewrite lookup_insert_eq. unfold Spec.score.
  rewrite totalDeductions_spec. reflexivity.
Qed.

Lemma addEvent_session_absent sid ev clock rnd db :
  getSession sid db = None →
  sessions (addEvent sid ev clock rnd db).2 = sessions db.
Proof. unfold getSession, addEvent. simpl. by intros ->. Qed.

Lemma addEvent_session_other sid sid' ev clock rnd db :
  sid ≠ sid' →
  getSession sid' (addEvent sid ev clock rnd db).2 = getSession sid' db.
Proof.
  intros Hne. unfold getSession, addEvent. simpl.
  destruct (sessions db !! sid); [by rewrite lookup_insert_ne|done].
Qed.

(** C1. Whenever an event is appended to an existing session, the stored
    integrity score is max(0, 100 - sum of the severity weights of all the
    events of that session, the new one included), with weights 2 / 5 / 10
    for low / medium / high; it is an integer between 0 and 100. *)
Theorem C1_score_after_append :
  ∀ (db : InMemoryDatabase) (sid : string) (s : ProctoringSession)
    (ev : EventInput) (clock : Z) (rnd : string),
    getSession sid db = Some s →
    ∃ s', getSession sid (addEvent sid ev clock rnd db).2 = Some s' ∧
          getEvents sid (addEvent sid ev clock rnd db).2
          = getEvents sid db ++ [(addEvent sid ev clock rnd db).1] ∧
          integrityScore s'
          = Z.max 0 (100 - Spec.deductions
                             (getEvents sid (addEvent sid ev clock rnd db).2)) ∧
          0 ≤ integrityScore s' ≤ 100 ∧
          Spec.weight low = 2 ∧ Spec.weight medium = 5 ∧ Spec.weight high = 10.
Proof.
  intros db sid s ev clock rnd Hs.
  eexists. split; [by apply addEvent_session_present|].
  split; [apply addEvent_ledger|]. simpl.
  split; [reflexivity|]. split; [apply score_range|done].
Qed.

Lemma C1_score_after_append_witness :
  getSession Examples.jane_id Examples.jane_db = Some Examples.jane ∧
  ∃ s', getSession Examples.jane_id
          (addEvent Examples.jane_id Examples.absence 1700000011000 "q1w2e3r4t"
             Examples.jane_db).2 = Some s' ∧
        integrityScore s' = 90.
Proof.
  split; [reflexivity|].
  destruct (C1_score_after_append Examples.jane_db Examples.jane_id Examples.jane
              Examples.absence 1700000011000 "q1w2e3r4t" eq_refl)
    as (s' & Hs' & _ & Hscore & _).
  exists s'. split; [exact Hs'|]. rewrite Hscore. reflexivity.
Defined.

(** ** Appending to the ledger (C2) *)

(** Identifiers: the decimal clock value never contains the separator, so
    the (clock, random) pair can be read back from the identifier. *)

Lemma pretty_N_char_no_underscore (x : N) : pretty_N_char x ≠ "_"%char.
Proof. unfold pretty_N_char. repeat case_match; discriminate. Qed.

Lemma pretty_N_go_no_underscore (x : N) (s : string) :
  Spec.no_underscore s → Spec.no_underscore (pretty_N_go x s).
Proof.
  revert s. induction (N.lt_wf_0 x) as [x _ IH]; intros s Hs.
  destruct (decide (x = 0)%N) as [->|Hx].
  - by rewrite pretty_N_go_0.
  - rewrite pretty_N_go_step by lia. apply IH.
    + apply N.div_lt; lia.
    + split; [apply pretty_N_char_no_underscore|done].
Qed.

Lemma pretty_N_no_underscore (x : N) : Spec.no_underscore (pretty x).
Proof.
  unfold pretty, pretty_N. case_decide; [by split|].
  by apply pretty_N_go_no_underscore.
Qed.

Lemma pretty_Z_no_underscore (z : Z) : Spec.no_underscore (pretty z).
Proof.
  destruct z as [|p|p]; unfold pretty, pretty_Z.
  - by split.
  - apply pretty_N_no_underscore.
  - split; [discriminate|apply pretty_N_no_underscore].
Qed.

Lemma split_at_underscore (a b r r' : string) :
  Spec.no_underscore a → Spec.no_underscore b →
  a +:+ String "_" r = b +:+ String "_" r' → a = b ∧ r = r'.
Proof.
  revert b. induction a as [|c a IH]; intros [|d b] Ha Hb Heq; simpl in *.
  - by simplify_eq.
  - destruct Hb as [Hd _]. by simplify_eq.
  - destruct Ha as [Hc _]. by simplify_eq.
  - destruct Ha as [_ Ha], Hb as [_ Hb]. simplify_eq.
    destruct (IH b Ha Hb) as [-> ->]; done.
Qed.

Lemma event_id_of_inj (clock clock' : Z) (rnd rnd' : string) :
  event_id_of clock rnd = event_id_of clock' rnd' →
  clock = clock' ∧ rnd = rnd'.
Proof.
  unfold event_id_of. intros Heq.
  apply (inj (String.app "event_")) in Heq.
  apply split_at_underscore in Heq as [Hc Hr];
    [|apply pretty_Z_no_underscore..].
  split; [by apply (inj pretty)|done].
Qed.

Lemma session_id_of_inj (clock clock' : Z) (rnd rnd' : string) :
  session_id_of clock rnd = session_id_of clock' rnd' →
  clock = clock' ∧ rnd = rnd'.
Proof.
  unfold session_id_of. intros Heq.
  apply (inj (String.app "session_")) in Heq.
  apply split_at_underscore in Heq as [Hc Hr];
    [|apply pretty_Z_no_underscore..].
  split; [by apply (inj pretty)|done].
Qed.

Lemma validTypes_present (t : string) (ty : EventType) :
  EventsRoute.validTypes t = Some ty → EventsRoute.present (Some t) = true.
Proof.
  intros H. simpl. destruct (decide (t = "")) as [->|Hne].
  - discriminate H.
  - by rewrite bool_decide_eq_false_2.
Qed.

Lemma POST_well_formed (b : EventsRoute.EventBody) (date clock : Z)
    (rnd : string) (db : InMemoryDatabase) :
  Spec.well_formed b →
  ∃ ty sev,
    let input :=
      {| in_type := ty;
         in_timestamp := date;
         in_description := default "" (EventsRoute.b_description b);
         in_severity := sev;
         in_metadata := EventsRoute.b_metadata b |} in
    let sid := default "" (EventsRoute.b_sessionId b) in
    EventsRoute.POST (Parsed b) date clock rnd db
    = (Success (addEvent sid input clock rnd db).1,
       (addEvent sid input clock rnd db).2).
Proof.
  intros (Hsid & Hdesc & (t & ty & Ht & Hty) & Hsev).
  unfold EventsRoute.POST. rewrite Hsid, Hdesc, Ht.
  rewrite (validTypes_present t ty Hty).
  simpl. rewrite Hty.
  destruct Hsev as [Hno|(v & sv & Hv & Hsv)].
  - rewrite Hno. simpl. by exists ty, medium.
  - rewrite Hv. simpl. rewrite Hsv.
    rewrite (bool_decide_eq_true_2 (is_Some (Some sv))) by eauto.
    simpl. rewrite andb_false_r. exists ty.
    destruct (negb _); simpl; by eexists.
Qed.

Lemma POST_event_never_not_found (body : RequestBody EventsRoute.EventBody)
    (date clock : Z) (rnd : string) (db : InMemoryDatabase) (error : string) :
  (EventsRoute.POST body date clock rnd db).1 ≠ Failure 404 error.
Proof.
  unfold EventsRoute.POST. destruct body as [|b]; [by intros [=]|].
  destruct (_ || _); [by intros [=]|].
  destruct (EventsRoute.validTypes _); [|by intros [=]].
  destruct (_ && _); [by intros [=]|].
  by destruct (addEvent _ _ _ _ _).
Qed.

(** C2, as stated, fails: appending under an identifier that names no
    session does not fail with NotFound.  The store call returns the event,
    the route answers with success, and the event is kept in a ledger of its
    own.  Nor does the code make identifiers unique by itself: two appends
    that read the same clock value and random draw carry the same one. *)
Lemma C2_unknown_session_append_succeeds :
  getSession "ghost" db0 = None ∧
  (EventsRoute.POST (Parsed Examples.ghost_body)
     1700000011000 1700000011000 "q1w2e3r4t" db0).1
  = Success Examples.ghost_event ∧
  getEvents "ghost"
    (EventsRoute.POST (Parsed Examples.ghost_body)
       1700000011000 1700000011000 "q1w2e3r4t" db0).2
  = [Examples.ghost_event] ∧
  event_id <$>
    getEvents Examples.jane_id
      (addEvent Examples.jane_id Examples.absence 1700000011000 "q1w2e3r4t"
         (addEvent Examples.jane_id Examples.absence 1700000011000 "q1w2e3r4t"
            Examples.jane_db).2).2
  = ["event_1700000011000_q1w2e3r4t"; "event_1700000011000_q1w2e3r4t"].
Proof. repeat split; vm_compute; reflexivity. Qed.

(** C2, amended.  [addEvent] never fails.  It returns the input completed
    with the identifier [event_<clock>_<random>] and the session identifier,
    and puts it at the end of the ledger kept under that identifier, leaving
    every other ledger and session alone.  When the identifier names a
    session, the same call sets that session's [totalEvents] to the length of
    the ledger and its [integrityScore] to the score of the ledger; when it
    names none, no session changes and no NotFound is raised.  Identifiers in
    the ledger stay pairwise distinct as long as the (clock, random) draw has
    not been used for an earlier event of the ledger.  The route answers
    every request body that passes validation with success, and no request
    body with status 404. *)
Theorem C2_append_total :
  ∀ (db : InMemoryDatabase) (sid : string) (ev : EventInput)
    (clock : Z) (rnd : string),
    let e := (addEvent sid ev clock rnd db).1 in
    let db' := (addEvent sid ev clock rnd db).2 in
    e = {| event_id := event_id_of clock rnd;
           sessionId := sid;
           type := in_type ev;
           timestamp := in_timestamp ev;
           description := in_description ev;
           severity := in_severity ev;
           metadata := in_metadata ev |} ∧
    getEvents sid db' = getEvents sid db ++ [e] ∧
    (∀ sid', sid ≠ sid' →
       getEvents sid' db' = getEvents sid' db ∧
       getSession sid' db' = getSession sid' db) ∧
    (∀ s, getSession sid db = Some s →
       ∃ s', getSession sid db' = Some s' ∧
             Spec.same_description s s' ∧
             totalEvents s' = Z.of_nat (length (getEvents sid db')) ∧
             integrityScore s' = Spec.score (getEvents sid db')) ∧
    (getSession sid db = None → sessions db' = sessions db) ∧
    (NoDup (event_id <$> getEvents sid db) →
     ¬ Spec.drawn clock rnd (getEvents sid db) →
     NoDup (event_id <$> getEvents sid db')) ∧
    (∀ clock' rnd', (clock', rnd') ≠ (clock, rnd) →
       event_id_of clock' rnd' ≠ event_id e) ∧
    (∀ b date, Spec.well_formed b →
       EventsRoute.b_sessionId b = Some sid →
       ∃ e' db'', EventsRoute.POST (Parsed b) date clock rnd db
                  = (Success e', db'') ∧
                  getEvents sid db'' = getEvents sid db ++ [e']) ∧
    (∀ body date error,
       (EventsRoute.POST body date clock rnd db).1 ≠ Failure 404 error).
Proof.
  intros db sid ev clock rnd e db'. subst e db'.
  split; [reflexivity|].
  split; [apply addEvent_ledger|].
  split.
  { intros sid' Hne. split.
    - by apply addEvent_ledger_other.
    - by apply addEvent_session_other. }
  split.
  { intros s Hs. eexists. split; [by apply addEvent_session_present|].
    by repeat split. }
  split; [apply addEvent_session_absent|].
  split.
  { intros Hnd Hfresh. rewrite addEvent_ledger, fmap_app.
    apply NoDup_app. split; [done|]. split.
    - intros x Hx Hin. simpl in Hin. apply list_elem_of_singleton in Hin.
      subst x. by apply Hfresh.
    - simpl. apply NoDup_singleton. }
  split.
  { intros clock' rnd' Hne Heq. simpl in Heq.
    apply event_id_of_inj in Heq as [-> ->]. by apply Hne. }
  split; [|intros body date error; apply POST_event_never_not_found].
  intros b date Hwf Hsid.
  destruct (POST_well_formed b date clock rnd db Hwf) as (ty & sev & Hpost).
  cbv zeta in Hpost. rewrite Hsid in Hpost.
  change (default "" (Some sid)) with sid in Hpost.
  eexists _, _. split; [exact Hpost|]. apply addEvent_ledger.
Qed.

Lemma C2_append_total_witness :
  getSession Examples.jane_id Examples.jane_db = Some Examples.jane ∧
  ∃ s', getSession Examples.jane_id
          (addEvent Examples.jane_id Examples.absence 1700000011000 "q1w2e3r4t"
             Examples.jane_db).2 = Some s' ∧
        totalEvents s' = 1 ∧ integrityScore s' = 90.
Proof.
  split; [reflexivity|].
  destruct (C2_append_total Examples.jane_db Examples.jane_id Examples.absence
              1700000011000 "q1w2e3r4t") as (_ & _ & _ & Hpresent & _).
  destruct (Hpresent Examples.jane eq_refl) as (s' & Hs' & _ & Htotal & Hscore).
  exists s'. split; [exact Hs'|]. rewrite Htotal, Hscore.
  split; reflexivity.
Defined.

(** ** Session updates (C3, C8) *)

Lemma updateSession_present sid u db s :
  getSession sid db = Some s →
  updateSession sid u db
  = (Some (spread s u),
     {| sessions := <[sid := spread s u]> (sessions db); events := events db |}).
Proof. unfold getSession, updateSession. by intros ->. Qed.

Lemma updateSession_absent sid u db :
  getSession sid db = None → updateSession sid u db = (None, db).
Proof. unfold getSession, updateSession. by intros ->. Qed.

Lemma PATCH_present sid u db s :
  getSession sid db = Some s →
  SessionRoute.PATCH sid (Parsed u) db
  = (Success (spread s u),
     {| sessions := <[sid := spread s u]> (sessions db); events := events db |}).
Proof.
  intros Hs. unfold SessionRoute.PATCH.
  by rewrite (updateSession_present _ _ _ _ Hs).
Qed.

Lemma PATCH_absent sid u db :
  getSession sid db = None →
  SessionRoute.PATCH sid (Parsed u) db = (Failure 404 "Session not found", db).
Proof.
  intros Hs. unfold SessionRoute.PATCH.
  by rewrite (updateSession_absent _ _ _ Hs).
Qed.

(** C3, as stated, fails: a session that was completed by one [PATCH] is
    terminated by the next one; the request succeeds and the stored status
    changes. *)
Lemma C3_completed_session_can_be_terminated :
  let db1 := (SessionRoute.PATCH Examples.jane_id (Parsed Examples.complete)
                Examples.jane_db).2 in
  status <$> getSession Examples.jane_id db1 = Some completed ∧
  (SessionRoute.PATCH Examples.jane_id (Parsed Examples.terminate) db1).1
  = Success {| id := Examples.jane_id;
               candidateName := "Jane Doe";
               startTime := 1700000000000;
               endTime := Some 1700000600000;
               status := terminated;
               totalEvents := 0;
               integrityScore := 100 |} ∧
  status <$> getSession Examples.jane_id
               (SessionRoute.PATCH Examples.jane_id (Parsed Examples.terminate)
                  db1).2
  = Some terminated.
Proof. repeat split; vm_compute; reflexivity. Qed.

(** C3, amended.  The store has no notion of an invalid transition: for a
    session in any status, completed and terminated included, an update
    succeeds, stores the session with the supplied fields written over the
    old ones (so the status becomes the supplied one, or stays when none is
    supplied) and returns it.  The only failure is "Session not found"
    (404) for an identifier that names no session, and it leaves the store
    unchanged. *)
Theorem C3_update_any_status :
  ∀ (db : InMemoryDatabase) (sid : string) (u : SessionUpdates),
    (∀ s, getSession sid db = Some s →
       (SessionRoute.PATCH sid (Parsed u) db).1 = Success (spread s u) ∧
       getSession sid (SessionRoute.PATCH sid (Parsed u) db).2
       = Some (spread s u) ∧
       status (spread s u) = default (status s) (u_status u) ∧
       (∀ sid', sid ≠ sid' →
          getSession sid' (SessionRoute.PATCH sid (Parsed u) db).2
          = getSession sid' db) ∧
       events (SessionRoute.PATCH sid (Parsed u) db).2 = events db) ∧
    (getSession sid db = None →
       SessionRoute.PATCH sid (Parsed u) db
       = (Failure 404 "Session not found", db)).
Proof.
  intros db sid u. split.
  - intros s Hs. rewrite (PATCH_present _ _ _ _ Hs). simpl.
    split; [done|]. unfold getSession. simpl.
    split; [by rewrite lookup_insert_eq|]. split; [done|].
    split; [|done]. intros sid' Hne. by rewrite lookup_insert_ne.
  - apply PATCH_absent.
Qed.

Lemma C3_update_any_status_witness :
  let db1 := (SessionRoute.PATCH Examples.jane_id (Parsed Examples.complete)
                Examples.jane_db).2 in
  ∃ s, getSession Examples.jane_id db1 = Some s ∧ status s = completed ∧
       status <$> getSession Examples.jane_id
                    (SessionRoute.PATCH Examples.jane_id
                       (Parsed Examples.terminate) db1).2
       = Some terminated.
Proof.
  intros db1.
  exists (spread Examples.jane Examples.complete).
  split; [reflexivity|]. split; [reflexivity|].
  destruct (C3_update_any_status db1 Examples.jane_id Examples.terminate)
    as [Hpresent _].
  destruct (Hpresent (spread Examples.jane Examples.complete) eq_refl)
    as (_ & Hstored & _).
  rewrite Hstored. reflexivity.
Defined.

(** Histories and the cache invariant. *)

Lemma cache_invariant_db0 : Spec.cache_invariant db0.
Proof. intros sid s Hs. unfold getSession in Hs. simpl in Hs. done. Qed.

Lemma createSession_cache name clock rnd date db :
  Spec.cache_invariant db →
  Spec.cache_invariant (createSession name clock rnd date db).2.
Proof.
  intros Hinv sid s. unfold createSession, getSession, getEvents. simpl.
  destruct (decide (session_id_of clock rnd = sid)) as [<-|Hne].
  - rewrite !lookup_insert_eq. intros [= <-]. simpl. done.
  - rewrite !lookup_insert_ne by done. apply Hinv.
Qed.

Lemma updateSession_cache sid u db :
  u_totalEvents u = None → u_integrityScore u = None →
  Spec.cache_invariant db →
  Spec.cache_invariant (updateSession sid u db).2.
Proof.
  intros Htot Hscore Hinv.
  destruct (getSession sid db) as [s|] eqn:Hs.
  - rewrite (updateSession_present _ _ _ _ Hs). simpl.
    intros sid' s'. unfold getSession, getEvents. simpl.
    destruct (decide (sid = sid')) as [<-|Hne].
    + rewrite lookup_insert_eq. intros [= <-].
      unfold spread. simpl. rewrite Htot, Hscore. simpl. by apply Hinv.
    + rewrite lookup_insert_ne by done. apply Hinv.
  - by rewrite (updateSession_absent _ _ _ Hs).
Qed.

Lemma addEvent_cache sid ev clock rnd db :
  Spec.cache_invariant db →
  Spec.cache_invariant (addEvent sid ev clock rnd db).2.
Proof.
  intros Hinv sid' s'.
  destruct (decide (sid = sid')) as [<-|Hne].
  - destruct (getSession sid db) as [s|] eqn:Hs.
    + rewrite (addEvent_session_present _ _ _ _ _ _ Hs). by intros [= <-].
    + unfold getSession in *.
      rewrite (addEvent_session_absent sid ev clock rnd db Hs), Hs. done.
  - rewrite addEvent_session_other, addEvent_ledger_other by done. apply Hinv.
Qed.

Lemma exec_cache op db :
  Trace.derived_untouched op →
  Spec.cache_invariant db → Spec.cache_invariant (Trace.exec op db).
Proof.
  destruct op as [name clock rnd date|sid u|sid ev clock rnd]; simpl.
  - intros _. apply createSession_cache.
  - intros [Htot Hscore]. by apply updateSession_cache.
  - intros _. apply addEvent_cache.
Qed.

Lemma run_cache ops db :
  Forall Trace.derived_untouched ops →
  Spec.cache_invariant db → Spec.cache_invariant (Trace.run ops db).
Proof.
  intros Hops. revert db.
  induction Hops as [|op ops Hop _ IH]; intros db Hinv; simpl; [done|].
  apply IH. by apply exec_cache.
Qed.

(** C8, as stated, fails: a [PATCH] carrying [integrityScore: 0] for a
    freshly created session is neither rejected nor ignored; the stored score
    becomes 0 while the score recomputed from the (empty) ledger is 100. *)
Lemma C8_direct_score_write_accepted :
  let db1 := (SessionRoute.PATCH Examples.jane_id (Parsed Examples.zero_score)
                Examples.jane_db).2 in
  integrityScore <$> getSession Examples.jane_id db1 = Some 0 ∧
  Spec.score (getEvents Examples.jane_id db1) = 100 ∧
  ¬ Spec.cache_invariant db1.
Proof.
  intros db1. split; [reflexivity|]. split; [reflexivity|].
  intros Hinv.
  destruct (Hinv Examples.jane_id (spread Examples.jane Examples.zero_score)
              eq_refl) as [Hscore _].
  vm_compute in Hscore. discriminate Hscore.
Qed.

(** C8, amended.  [updateSession] writes [totalEvents] and [integrityScore]
    like any other field when the update carries them.  The cache invariant
    (stored score and count equal the ones recomputed from the ledger) holds
    in every store reached from the empty one by [createSession], [addEvent]
    and those [updateSession] calls that carry neither of the two derived
    fields. *)
Theorem C8_cache_invariant_without_direct_writes :
  (∀ (db : InMemoryDatabase) (sid : string) (s : ProctoringSession)
     (u : SessionUpdates),
     getSession sid db = Some s →
     ∃ s', getSession sid (updateSession sid u db).2 = Some s' ∧
           totalEvents s' = default (totalEvents s) (u_totalEvents u) ∧
           integrityScore s' = default (integrityScore s) (u_integrityScore u)) ∧
  (∀ ops : list Trace.Op,
     Forall Trace.derived_untouched ops →
     Spec.cache_invariant (Trace.run ops db0)).
Proof.
  split.
  - intros db sid s u Hs. rewrite (updateSession_present _ _ _ _ Hs).
    exists (spread s u). unfold getSession. simpl.
    by rewrite lookup_insert_eq.
  - intros ops Hops. apply run_cache; [done|apply cache_invariant_db0].
Qed.

Lemma C8_cache_invariant_without_direct_writes_witness :
  let ops := [Trace.CreateSession "Jane Doe" 1700000000000 "k3j9x2abc" 1700000000000;
              Trace.AddEvent Examples.jane_id Examples.absence
                1700000011000 "q1w2e3r4t";
              Trace.UpdateSession Examples.jane_id Examples.complete] in
  Forall Trace.derived_untouched ops ∧
  ∃ s, getSession Examples.jane_id (Trace.run ops db0) = Some s ∧
       status s = completed ∧
       integrityScore s = Spec.score (getEvents Examples.jane_id (Trace.run ops db0)).
Proof.
  intros ops.
  assert (Forall Trace.derived_untouched ops) as Hops.
  { repeat constructor. }
  split; [exact Hops|].
  destruct C8_cache_invariant_without_direct_writes as [_ Hinv].
  eexists. split; [reflexivity|]. split; [reflexivity|].
  apply (Hinv ops Hops Examples.jane_id). reflexivity.
Defined.

(** ** Session creation (C4) *)

Lemma POST_session_created (s : string) (clock : Z) (rnd : string) (date : Z)
    (db : InMemoryDatabase) :
  s ≠ "" →
  (SessionsRoute.POST (Parsed (JString s)) clock rnd date db).1
  = Success {| id := session_id_of clock rnd;
               candidateName := trim s;
               startTime := date;
               endTime := None;
               status := active;
               totalEvents := 0;
               integrityScore := 100 |}.
Proof.
  intros Hne. unfold SessionsRoute.POST. simpl.
  by rewrite bool_decide_eq_false_2.
Qed.

Lemma POST_session_rejected (v : JsValue) (clock : Z) (rnd : string) (date : Z)
    (db : InMemoryDatabase) :
  (∀ s, v = JString s → s = "") →
  SessionsRoute.POST (Parsed v) clock rnd date db
  = (Failure 400 "Candidate name is required", db).
Proof.
  intros Hv. unfold SessionsRoute.POST.
  destruct v as [| |b|n|s|]; simpl; try done.
  - by destruct b.
  - by destruct (n =? 0).
  - by rewrite (Hv s eq_refl).
Qed.

(** C4, the code at the failing input: a name made of three spaces passes
    the emptiness test, is trimmed afterwards, and a session with the empty
    candidate name is created and returned with success, whatever the store
    and the clock. *)
Theorem C4_blank_name_creates_session :
  ∀ (clock : Z) (rnd : string) (date : Z) (db : InMemoryDatabase),
    trim "   " = "" ∧
    (SessionsRoute.POST (Parsed (JString "   ")) clock rnd date db).1
    = Success {| id := session_id_of clock rnd;
                 candidateName := "";
                 startTime := date;
                 endTime := None;
                 status := active;
                 totalEvents := 0;
                 integrityScore := 100 |} ∧
    getSession (session_id_of clock rnd)
      (SessionsRoute.POST (Parsed (JString "   ")) clock rnd date db).2
    = Some {| id := session_id_of clock rnd;
              candidateName := "";
              startTime := date;
              endTime := None;
              status := active;
              totalEvents := 0;
              integrityScore := 100 |}.
Proof.
  intros clock rnd date db. split; [reflexivity|]. split.
  - by rewrite POST_session_created.
  - unfold SessionsRoute.POST, getSession, createSession. simpl.
    by rewrite lookup_insert_eq.
Qed.

(** ** The face-signal debouncer (C5, C6, C9) *)

Lemma count_of_app ty (calls calls' : list Emission) :
  count_of ty (calls ++ calls') = (count_of ty calls + count_of ty calls')%nat.
Proof. unfold count_of, calls_of. by rewrite filter_app, length_app. Qed.

Lemma run_cons (now : Z) (r : FaceDetectionResult) (rest : list Tick)
    (st : FaceDetectionStats) :
  run ((now, r) :: rest) st
  = ((run rest (handleFaceDetection now r st).1).1,
     (handleFaceDetection now r st).2
     ++ (run rest (handleFaceDetection now r st).1).2).
Proof.
  cbn [run]. destruct (handleFaceDetection now r st) as [st1 calls1].
  cbn [fst snd]. by destruct (run rest st1).
Qed.

Lemma run_app (ticks ticks' : list Tick) (st : FaceDetectionStats) :
  run (ticks ++ ticks') st
  = ((run ticks' (run ticks st).1).1,
     (run ticks st).2 ++ (run ticks' (run ticks st).1).2).
Proof.
  revert st. induction ticks as [|[now r] ticks IH]; intros st.
  - cbn [app run fst snd]. by destruct (run ticks' st).
  - rewrite <- app_comm_cons, !run_cons, IH. cbn [fst snd].
    by rewrite app_assoc.
Qed.

Lemma handle_gaze_returns now r st :
  isLookingAway r = false →
  lookAwayStartTime (handleFaceDetection now r st).1 = None ∧
  wasLookingAway (handleFaceDetection now r st).1 = false ∧
  count_of focus_loss (handleFaceDetection now r st).2 = 0%nat.
Proof.
  intros Hr. unfold handleFaceDetection, count_of, calls_of. rewrite Hr. simpl.
  repeat split; try done. handler_cases; reflexivity.
Qed.

Lemma handle_gaze_leaves now r st :
  isLookingAway r = true → wasLookingAway st = false →
  lookAwayStartTime (handleFaceDetection now r st).1 = Some now ∧
  wasLookingAway (handleFaceDetection now r st).1 = true ∧
  count_of focus_loss (handleFaceDetection now r st).2 = 0%nat.
Proof.
  intros Hr Hst. unfold handleFaceDetection, count_of, calls_of.
  rewrite Hr, Hst. simpl.
  replace (now - now) with 0 by lia.
  change (0 >? 5000) with false. rewrite andb_false_r.
  repeat split; try done. handler_cases; reflexivity.
Qed.

Lemma handle_gaze_stays now r st t :
  isLookingAway r = true → wasLookingAway st = true →
  lookAwayStartTime st = Some t → t ≠ 0 →
  wasLookingAway (handleFaceDetection now r st).1 = true ∧
  (5000 < now - t →
     lookAwayStartTime (handleFaceDetection now r st).1 = Some now ∧
     count_of focus_loss (handleFaceDetection now r st).2 = 1%nat) ∧
  (now - t ≤ 5000 →
     lookAwayStartTime (handleFaceDetection now r st).1 = Some t ∧
     count_of focus_loss (handleFaceDetection now r st).2 = 0%nat).
Proof.
  intros Hr Hst Hstart Ht.
  unfold handleFaceDetection, count_of, calls_of.
  rewrite Hr, Hst, Hstart. simpl.
  destruct (Z.eqb_spec t 0) as [|_]; [done|]. simpl.
  split; [done|]. split; intros Hlate.
  - assert ((now - t >? 5000) = true) as -> by (apply Z.gtb_lt; lia).
    split; [done|]. handler_cases; reflexivity.
  - assert ((now - t >? 5000) = false) as ->.
    { rewrite Z.gtb_ltb. apply Z.ltb_ge. lia. }
    split; [done|]. handler_cases; reflexivity.
Qed.

(** Inside an episode: [j] ticks after the last (re)start of the timer, the
    number of [focus_loss] calls over the next ticks. *)
Lemma run_gaze_stays (results : list FaceDetectionResult) :
  ∀ (st : FaceDetectionStats) (t : Z) (j : nat),
    Forall (λ r, isLookingAway r = true) results →
    wasLookingAway st = true →
    lookAwayStartTime st = Some (t - 1000 * Z.of_nat j) →
    0 < t - 1000 * Z.of_nat j →
    (1 ≤ j ≤ 6)%nat →
    count_of focus_loss (run (sampled t 1000 results) st).2
    = ((length results + j - 1) `div` 6)%nat.
Proof.
  induction results as [|r results IH]; intros st t j Haway Hst Hstart Hpos Hj.
  - cbn [sampled run snd length]. rewrite Nat.div_small by lia. reflexivity.
  - apply Forall_cons in Haway as [Hr Haway].
    cbn [sampled length]. rewrite run_cons. cbn [snd].
    destruct (handle_gaze_stays t r st (t - 1000 * Z.of_nat j) Hr Hst Hstart)
      as (Hst' & Hlate & Hearly); [lia|].
    rewrite count_of_app.
    destruct (decide (j = 6%nat)) as [->|Hj6].
    + destruct Hlate as [Hstart1 ->]; [lia|].
      rewrite (IH _ (t + 1000) 1%nat);
        [|done|done|rewrite Hstart1; f_equal; lia|lia|lia].
      replace (S (length results) + 6 - 1)%nat
        with (length results + 1 - 1 + 1 * 6)%nat by lia.
      rewrite Nat.div_add by lia. lia.
    + destruct Hearly as [Hstart1 ->]; [lia|].
      rewrite (IH _ (t + 1000) (S j));
        [|done|done|rewrite Hstart1; f_equal; lia|lia|lia].
      cbn [Nat.add]. f_equal. lia.
Qed.

Lemma run_gaze_episode (results : list FaceDetectionResult)
    (st : FaceDetectionStats) (t0 : Z) :
  wasLookingAway st = false → 0 < t0 →
  Forall (λ r, isLookingAway r = true) results →
  count_of focus_loss (run (sampled t0 1000 results) st).2
  = ((length results - 1) `div` 6)%nat.
Proof.
  intros Hst Hpos Haway. destruct results as [|r results]; [done|].
  apply Forall_cons in Haway as [Hr Haway].
  cbn [sampled length]. rewrite run_cons. cbn [snd].
  destruct (handle_gaze_leaves t0 r st Hr Hst) as (Hstart & Hst1 & Hcount).
  rewrite count_of_app, Hcount.
  rewrite (run_gaze_stays results _ (t0 + 1000) 1 Haway Hst1).
  - replace (S (length results) - 1)%nat with (length results + 1 - 1)%nat
      by lia.
    reflexivity.
  - rewrite Hstart. f_equal. lia.
  - lia.
  - lia.
Qed.

(** Every call made by the handler is one of three fixed shapes. *)
Lemma handle_calls_shape now r st c :
  c ∈ (handleFaceDetection now r st).2 →
  c = mkEmission no_face "No face detected for more than 10 seconds" high ∨
  c = mkEmission multiple_faces (faces_description (faceCount r)) high ∨
  c = mkEmission focus_loss
        "Candidate looked away from screen for more than 5 seconds" medium.
Proof.
  unfold handleFaceDetection. cbn [snd].
  repeat case_match; cbn [app];
    rewrite ?elem_of_cons, ?elem_of_nil; intuition auto.
Qed.

Lemma run_calls_shape ticks st c :
  c ∈ (run ticks st).2 →
  ∃ r, c = mkEmission no_face "No face detected for more than 10 seconds" high ∨
       c = mkEmission multiple_faces (faces_description (faceCount r)) high ∨
       c = mkEmission focus_loss
             "Candidate looked away from screen for more than 5 seconds" medium.
Proof.
  revert st. induction ticks as [|[now r] ticks IH]; intros st.
  - cbn [run snd]. by rewrite elem_of_nil.
  - rewrite run_cons. cbn [snd]. rewrite elem_of_app. intros [Hc|Hc].
    + exists r. by eapply handle_calls_shape.
    + by eapply IH.
Qed.

(** C5, as stated, fails: with the signal sampled every 1000 ms, the six
    ticks of the first 5001 ms of an episode (at 0, 1000, ..., 5000 ms) emit
    no [focus_loss], and the eleven ticks of the first 10001 ms emit exactly
    one, not one and two. *)
Lemma C5_no_focus_loss_within_5001_ms :
  count_of focus_loss
    (run (sampled 1700000000000 1000 (replicate 6 Examples.away))
       (initialStats 1699999999000)).2 = 0%nat ∧
  count_of focus_loss
    (run (sampled 1700000000000 1000 (replicate 11 Examples.away))
       (initialStats 1699999999000)).2 = 1%nat.
Proof. split; vm_compute; reflexivity. Qed.

(** C5, amended.  In a run of ticks that starts with [isLookingAway] going
    from false to true (at a clock value after the epoch) and stays true,
    sampled every 1000 ms, a [focus_loss] call is made on every sixth tick
    after the first: the timer must exceed 5000 ms strictly and is reset to
    "now" on each emission, so [n] ticks emit (n - 1) / 6 events (rounded
    down) -- none in the first 5001 ms, exactly one in the first 10001 ms,
    two from 12000 ms on.  Each such call has severity medium and the
    description "Candidate looked away from screen for more than 5 seconds".
    A tick with [isLookingAway = false] clears the episode timer and makes
    no [focus_loss] call. *)
Theorem C5_focus_loss_every_sixth_tick :
  ∀ (st : FaceDetectionStats) (t0 : Z) (results : list FaceDetectionResult),
    wasLookingAway st = false →
    0 < t0 →
    Forall (λ r, isLookingAway r = true) results →
    let calls := (run (sampled t0 1000 results) st).2 in
    count_of focus_loss calls = ((length results - 1) `div` 6)%nat ∧
    (length results = 6%nat → count_of focus_loss calls = 0%nat) ∧
    (length results = 11%nat → count_of focus_loss calls = 1%nat) ∧
    (length results = 13%nat → count_of focus_loss calls = 2%nat) ∧
    (∀ c, c ∈ calls → em_type c = focus_loss →
       c = mkEmission focus_loss
             "Candidate looked away from screen for more than 5 seconds" medium) ∧
    (∀ now r st', isLookingAway r = false →
       lookAwayStartTime (handleFaceDetection now r st').1 = None ∧
       count_of focus_loss (handleFaceDetection now r st').2 = 0%nat).
Proof.
  intros st t0 results Hst Hpos Haway calls.
  pose proof (run_gaze_episode results st t0 Hst Hpos Haway) as Hcount.
  fold calls in Hcount.
  split; [exact Hcount|].
  split; [intros Hlen; rewrite Hcount, Hlen; reflexivity|].
  split; [intros Hlen; rewrite Hcount, Hlen; reflexivity|].
  split; [intros Hlen; rewrite Hcount, Hlen; reflexivity|].
  split.
  - intros c Hc Hty.
    destruct (run_calls_shape _ _ _ Hc) as [r [-> | [-> | ->]]];
      [discriminate Hty|discriminate Hty|reflexivity].
  - intros now r st' Hr.
    destruct (handle_gaze_returns now r st' Hr) as (? & _ & ?). done.
Qed.

Lemma C5_focus_loss_every_sixth_tick_witness :
  wasLookingAway (initialStats 1699999999000) = false ∧
  0 < 1700000000000 ∧
  Forall (λ r, isLookingAway r = true) (replicate 11 Examples.away) ∧
  count_of focus_loss
    (run (sampled 1700000000000 1000 (replicate 11 Examples.away))
       (initialStats 1699999999000)).2 = 1%nat.
Proof.
  assert (Forall (λ r, isLookingAway r = true) (replicate 11 Examples.away))
    as Haway.
  { repeat constructor. }
  split; [reflexivity|]. split; [lia|]. split; [exact Haway|].
  destruct (C5_focus_loss_every_sixth_tick (initialStats 1699999999000)
              1700000000000 (replicate 11 Examples.away) eq_refl
              ltac:(lia) Haway) as (_ & _ & Heleven & _).
  apply Heleven. reflexivity.
Defined.

(** The reference time of the absence check. *)

Lemma handle_lastFaceTime now r st :
  lastFaceTime (handleFaceDetection now r st).1
  = if faceCount r >? 0 then now else lastFaceTime st.
Proof. reflexivity. Qed.

Lemma run_absent_keeps_lastFaceTime (absent : list Tick) (st : FaceDetectionStats) :
  Forall (λ tk : Tick, faceCount tk.2 = 0) absent →
  lastFaceTime (run absent st).1 = lastFaceTime st.
Proof.
  intros Habs. revert st.
  induction Habs as [|[now r] absent Hr _ IH]; intros st; [done|].
  rewrite run_cons. cbn [fst]. rewrite IH, handle_lastFaceTime.
  cbn [snd] in Hr. by rewrite Hr.
Qed.

Lemma run_lastFaceTime_after_face (history absent : list Tick) (t_face : Z)
    (r_face : FaceDetectionResult) (st : FaceDetectionStats) :
  0 < faceCount r_face →
  Forall (λ tk : Tick, faceCount tk.2 = 0) absent →
  lastFaceTime (run (history ++ (t_face, r_face) :: absent) st).1 = t_face.
Proof.
  intros Hface Habs. rewrite run_app. cbn [fst].
  rewrite run_cons. cbn [fst].
  rewrite run_absent_keeps_lastFaceTime by done.
  rewrite handle_lastFaceTime.
  by assert ((faceCount r_face >? 0) = true) as -> by (apply Z.gtb_lt; lia).
Qed.

Lemma handle_absence now r st :
  faceCount r = 0 → 10000 < now - lastFaceTime st →
  calls_of no_face (handleFaceDetection now r st).2
  = [mkEmission no_face "No face detected for more than 10 seconds" high] ∧
  lastFaceTime (handleFaceDetection now r st).1 = lastFaceTime st.
Proof.
  intros Hr Hlate. rewrite handle_lastFaceTime.
  unfold handleFaceDetection, calls_of. cbn [snd]. rewrite Hr.
  assert ((now - lastFaceTime st >? 10000) = true) as ->
    by (apply Z.gtb_lt; lia).
  split; [|reflexivity]. simpl. by repeat case_match.
Qed.

(** C6. A tick with no face that comes more than 10,000 ms after the last
    tick with a face makes exactly one [no_face] call (severity high,
    description "No face detected for more than 10 seconds").  The reference
    time stays the time of that last tick with a face, so every later tick of
    continued absence makes the call again. *)
Theorem C6_no_face_fires_on_every_late_tick :
  ∀ (st : FaceDetectionStats) (history absent : list Tick) (t_face : Z)
    (r_face : FaceDetectionResult) (now : Z) (r : FaceDetectionResult),
    0 < faceCount r_face →
    Forall (λ tk : Tick, faceCount tk.2 = 0) absent →
    faceCount r = 0 →
    10000 < now - t_face →
    let st' := (run (history ++ (t_face, r_face) :: absent) st).1 in
    lastFaceTime st' = t_face ∧
    calls_of no_face (handleFaceDetection now r st').2
    = [mkEmission no_face "No face detected for more than 10 seconds" high] ∧
    lastFaceTime (handleFaceDetection now r st').1 = t_face ∧
    (∀ now' r', now ≤ now' → faceCount r' = 0 →
       calls_of no_face
         (handleFaceDetection now' r' (handleFaceDetection now r st').1).2
       = [mkEmission no_face "No face detected for more than 10 seconds" high]).
Proof.
  intros st history absent t_face r_face now r Hface Habs Hr Hlate st'.
  pose proof (run_lastFaceTime_after_face history absent t_face r_face st
                Hface Habs) as Href.
  fold st' in Href.
  destruct (handle_absence now r st' Hr) as [Hcall Hkeep]; [lia|].
  split; [exact Href|]. split; [exact Hcall|].
  split; [by rewrite Hkeep|].
  intros now' r' Hnow' Hr'.
  apply handle_absence; [done|]. rewrite Hkeep. lia.
Qed.

Lemma C6_no_face_fires_on_every_late_tick_witness :
  let ticks := [(1700000000000, Examples.nominal);
                (1700000001000, Examples.nobody)] in
  calls_of no_face
    (handleFaceDetection 1700000011000 Examples.nobody
       (run ticks (initialStats 1699999999000)).1).2
  = [mkEmission no_face "No face detected for more than 10 seconds" high].
Proof.
  intros ticks.
  assert (Forall (λ tk : Tick, faceCount tk.2 = 0)
            [(1700000001000, Examples.nobody)]) as Habs.
  { repeat constructor. }
  destruct (C6_no_face_fires_on_every_late_tick (initialStats 1699999999000)
              [] [(1700000001000, Examples.nobody)] 1700000000000
              Examples.nominal 1700000011000 Examples.nobody
              ltac:(reflexivity) Habs eq_refl ltac:(lia))
    as (_ & Hcall & _).
  exact Hcall.
Defined.

(** C9. A tick with more than one face makes exactly one [multiple_faces]
    call, of severity high, whose description states the count; with three
    faces it reads "3 faces detected in frame".  This holds in every prior
    state of the debouncer. *)
Theorem C9_multiple_faces_every_tick :
  ∀ (st : FaceDetectionStats) (now : Z) (r : FaceDetectionResult),
    1 < faceCount r →
    calls_of multiple_faces (handleFaceDetection now r st).2
    = [mkEmission multiple_faces
         (pretty (faceCount r) +:+ " faces detected in frame") high] ∧
    (faceCount r = 3 →
     calls_of multiple_faces (handleFaceDetection now r st).2
     = [mkEmission multiple_faces "3 faces detected in frame" high]).
Proof.
  intros st now r Hmany.
  assert (calls_of multiple_faces (handleFaceDetection now r st).2
          = [mkEmission multiple_faces (faces_description (faceCount r)) high])
    as Hcalls.
  { unfold handleFaceDetection, calls_of. cbn [snd].
    assert ((faceCount r >? 1) = true) as -> by (apply Z.gtb_lt; lia).
    assert ((faceCount r =? 0) = false) as -> by (apply Z.eqb_neq; lia).
    simpl. by repeat case_match. }
  split; [exact Hcalls|].
  intros H3. rewrite Hcalls, H3. reflexivity.
Qed.

Lemma C9_multiple_faces_every_tick_witness :
  1 < faceCount Examples.crowd ∧
  calls_of multiple_faces
    (handleFaceDetection 1700000000000 Examples.crowd
       (initialStats 1699999999000)).2
  = [mkEmission multiple_faces "3 faces detected in frame" high].
Proof.
  split; [reflexivity|].
  destruct (C9_multiple_faces_every_tick (initialStats 1699999999000)
              1700000000000 Examples.crowd ltac:(reflexivity)) as [_ H3].
  apply H3. reflexivity.
Defined.

(** ** Recommendations (C7) *)

Lemma push_advisory (a b : Z) (recs : list string) (line : string) :
  (if a >? b then ReportRoute.push recs line else recs)
  = recs ++ Spec.advisory (b < a) line.
Proof.
  unfold Spec.advisory, ReportRoute.push.
  destruct (a >? b) eqn:Hgt.
  - apply Z.gtb_lt in Hgt. by rewrite decide_True.
  - rewrite Z.gtb_ltb in Hgt. apply Z.ltb_ge in Hgt.
    rewrite decide_False by lia. by rewrite app_nil_r.
Qed.

Lemma push_tier (score : Z) :
  (if score >=? 90 then
     ReportRoute.push []
       "Excellent interview integrity maintained throughout the session."
   else if score >=? 70 then
     ReportRoute.push []
       "Good overall performance with minor integrity concerns."
   else if score >=? 50 then
     ReportRoute.push []
       "Moderate integrity issues detected. Review flagged events."
   else
     ReportRoute.push []
       "Significant integrity concerns. Manual review strongly recommended.")
  = [Spec.tier_message score].
Proof.
  unfold Spec.tier_message, ReportRoute.push.
  destruct (score >=? 90) eqn:H90;
    [apply Z.geb_le in H90; by rewrite decide_True|].
  rewrite Z.geb_leb in H90. apply Z.leb_gt in H90.
  rewrite (decide_False (P := 90 ≤ score)) by lia.
  destruct (score >=? 70) eqn:H70;
    [apply Z.geb_le in H70; by rewrite decide_True|].
  rewrite Z.geb_leb in H70. apply Z.leb_gt in H70.
  rewrite (decide_False (P := 70 ≤ score)) by lia.
  destruct (score >=? 50) eqn:H50;
    [apply Z.geb_le in H50; by rewrite decide_True|].
  rewrite Z.geb_leb in H50. apply Z.leb_gt in H50.
  by rewrite (decide_False (P := 50 ≤ score)) by lia.
Qed.

Lemma generateRecommendations_spec (stats : SessionStats) :
  ReportRoute.generateRecommendations stats
  = Spec.recommend (integrityScore (session stats)) (eventsByType stats)
      (eventsBySeverity stats).
Proof.
  unfold ReportRoute.generateRecommendations, Spec.recommend. cbv zeta.
  rewrite !push_advisory, push_tier. by rewrite <- !app_assoc.
Qed.

Lemma generateRecommendations_same (stats : SessionStats) :
  BatchRoute.generateRecommendations stats
  = ReportRoute.generateRecommendations stats.
Proof. reflexivity. Qed.

Lemma advisory_elem (P : Prop) `{Decision P} (line x : string) :
  x ∈ Spec.advisory P line ↔ P ∧ x = line.
Proof.
  unfold Spec.advisory. case_decide.
  - rewrite list_elem_of_singleton. tauto.
  - rewrite elem_of_nil. tauto.
Qed.

Lemma tier_message_cases (score : Z) :
  Spec.tier_message score
  = "Excellent interview integrity maintained throughout the session." ∨
  Spec.tier_message score
  = "Good overall performance with minor integrity concerns." ∨
  Spec.tier_message score
  = "Moderate integrity issues detected. Review flagged events." ∨
  Spec.tier_message score
  = "Significant integrity concerns. Manual review strongly recommended.".
Proof. unfold Spec.tier_message. repeat case_decide; auto. Qed.

(** Membership of a line in a recommendation list, as a disjunction over
    the five rules. *)
Lemma recommend_elem (score : Z) (byType : EventsByType)
    (bySeverity : EventsBySeverity) (x : string) :
  x ∈ Spec.recommend score byType bySeverity ↔
  x = Spec.tier_message score ∨
  (3 < n_focus_loss byType ∧
   x = "Candidate frequently lost focus. Consider environment assessment.") ∨
  (0 < n_suspicious_object byType ∧
   x = "Suspicious objects detected. Verify candidate workspace setup.") ∨
  (0 < n_multiple_faces byType ∧
   x = "Multiple faces detected. Investigate potential unauthorized assistance.") ∨
  (2 < n_high bySeverity ∧
   x = "Multiple high-severity events recorded. Detailed investigation required.").
Proof.
  unfold Spec.recommend.
  rewrite !elem_of_app, list_elem_of_singleton, !advisory_elem. tauto.
Qed.

(** Settles an equivalence between the membership disjunction of
    [recommend_elem] at a fixed advisory line and the guard of its rule. *)
Ltac advisory_iff score :=
  rewrite recommend_elem;
  split;
  [ intros [Htier|[[? Hl]|[[? Hl]|[[? Hl]|[? Hl]]]]];
    [ destruct (tier_message_cases score) as [Ht|[Ht|[Ht|Ht]]];
      rewrite Ht in Htier; discriminate Htier
    | first [assumption | discriminate Hl].. ]
  | intros ?; tauto ].

(** C7. For every score and every combination of counts, both copies of
    [generateRecommendations] return the tier message of the score band
    (>= 90, >= 70, >= 50, otherwise) followed, in this order, by the
    focus-loss advisory iff the focus_loss count exceeds 3, the workspace
    advisory iff the suspicious_object count exceeds 0, the assistance
    advisory iff the multiple_faces count exceeds 0, and the investigation
    advisory iff the high-severity count exceeds 2.  The list is never
    empty. *)
Theorem C7_recommendations :
  ∀ stats : SessionStats,
    let recs := ReportRoute.generateRecommendations stats in
    recs = Spec.recommend (integrityScore (session stats)) (eventsByType stats)
             (eventsBySeverity stats) ∧
    BatchRoute.generateRecommendations stats = recs ∧
    recs ≠ [] ∧
    head recs = Some (Spec.tier_message (integrityScore (session stats))) ∧
    ("Candidate frequently lost focus. Consider environment assessment." ∈ recs
     ↔ 3 < n_focus_loss (eventsByType stats)) ∧
    ("Suspicious objects detected. Verify candidate workspace setup." ∈ recs
     ↔ 0 < n_suspicious_object (eventsByType stats)) ∧
    ("Multiple faces detected. Investigate potential unauthorized assistance."
       ∈ recs
     ↔ 0 < n_multiple_faces (eventsByType stats)) ∧
    ("Multiple high-severity events recorded. Detailed investigation required."
       ∈ recs
     ↔ 2 < n_high (eventsBySeverity stats)).
Proof.
  intros stats recs. subst recs.
  split; [apply generateRecommendations_spec|].
  split; [apply generateRecommendations_same|].
  rewrite generateRecommendations_spec.
  split; [done|]. split; [reflexivity|].
  split; [advisory_iff (integrityScore (session stats))|].
  split; [advisory_iff (integrityScore (session stats))|].
  split; advisory_iff (integrityScore (session stats)).
Qed.

(** ** Reading the ledger of an unknown session (C10) *)

Lemma exec_session_kept (op : Trace.Op) (sid : string) (db : InMemoryDatabase) :
  getSession sid (Trace.exec op db) = None → getSession sid db = None.
Proof.
  destruct op as [name clock rnd date|sid' u|sid' ev clock rnd];
    unfold Trace.exec, getSession.
  - unfold createSession. cbn [snd sessions id].
    destruct (decide (session_id_of clock rnd = sid)) as [<-|Hne].
    + by rewrite lookup_insert_eq.
    + by rewrite lookup_insert_ne.
  - destruct (getSession sid' db) as [s|] eqn:Hs.
    + rewrite (updateSession_present _ _ _ _ Hs). cbn [snd sessions].
      destruct (decide (sid' = sid)) as [<-|Hne].
      * by rewrite lookup_insert_eq.
      * by rewrite lookup_insert_ne.
    + by rewrite (updateSession_absent _ _ _ Hs).
  - destruct (decide (sid' = sid)) as [<-|Hne].
    + destruct (getSession sid' db) as [s|] eqn:Hs.
      * pose proof (addEvent_session_present _ ev clock rnd _ _ Hs) as Hs'.
        unfold getSession in Hs'. by rewrite Hs'.
      * by rewrite (addEvent_session_absent _ _ _ _ _ Hs).
    + pose proof (addEvent_session_other _ _ ev clock rnd db Hne) as Hs'.
      unfold getSession in Hs'. by rewrite Hs'.
Qed.

Lemma run_session_kept (ops : list Trace.Op) (sid : string)
    (db : InMemoryDatabase) :
  getSession sid (Trace.run ops db) = None → getSession sid db = None.
Proof.
  revert db. induction ops as [|op ops IH]; intros db; [done|].
  cbn [Trace.run fold_left]. intros Hnone.
  by eapply exec_session_kept, IH.
Qed.

Lemma exec_ledger_unknown (op : Trace.Op) (sid : string) (db : InMemoryDatabase) :
  getSession sid (Trace.exec op db) = None →
  getEvents sid (Trace.exec op db) = getEvents sid db ++ Trace.appended sid [op].
Proof.
  destruct op as [name clock rnd date|sid' u|sid' ev clock rnd];
    cbn [Trace.exec Trace.appended].
  - unfold createSession, getSession, getEvents. cbn [snd sessions events id].
    destruct (decide (session_id_of clock rnd = sid)) as [<-|Hne].
    + by rewrite lookup_insert_eq.
    + rewrite !lookup_insert_ne by done. by rewrite app_nil_r.
  - intros _. rewrite app_nil_r. unfold getEvents, updateSession.
    by destruct (sessions db !! sid').
  - intros _. destruct (decide (sid' = sid)) as [<-|Hne].
    + by rewrite addEvent_ledger.
    + rewrite addEvent_ledger_other by done. by rewrite app_nil_r.
Qed.

Lemma appended_cons (sid : string) (op : Trace.Op) (ops : list Trace.Op) :
  Trace.appended sid (op :: ops)
  = Trace.appended sid [op] ++ Trace.appended sid ops.
Proof.
  destruct op as [name clock rnd date|sid' u|sid' ev clock rnd];
    cbn [Trace.appended]; [done..|].
  by case_decide.
Qed.

Lemma run_ledger_unknown (ops : list Trace.Op) (sid : string)
    (db : InMemoryDatabase) :
  getSession sid (Trace.run ops db) = None →
  getEvents sid (Trace.run ops db) = getEvents sid db ++ Trace.appended sid ops.
Proof.
  revert db. induction ops as [|op ops IH]; intros db Hnone.
  - cbn [Trace.run fold_left Trace.appended]. by rewrite app_nil_r.
  - cbn [Trace.run fold_left] in *. fold (Trace.run ops (Trace.exec op db)) in *.
    rewrite (IH _ Hnone), appended_cons, app_assoc. f_equal.
    apply exec_ledger_unknown. by eapply run_session_kept.
Qed.

(** C10, as stated, fails: after one accepted event request that names a
    session nobody created, that identifier still names no session, yet
    listing its events returns the event, not the empty sequence. *)
Lemma C10_unknown_session_with_events :
  let db1 := (EventsRoute.POST (Parsed Examples.ghost_body)
                1700000011000 1700000011000 "q1w2e3r4t" db0).2 in
  getSession "ghost" db1 = None ∧
  getEvents "ghost" db1 = [Examples.ghost_event] ∧
  getEventsByType "ghost" no_face db1 = [Examples.ghost_event] ∧
  EventsRoute.GET (Some "ghost") None db1 = Success [Examples.ghost_event].
Proof. repeat split; vm_compute; reflexivity. Qed.

(** C10, amended.  Listing the events of an identifier that names no
    session never yields a not-found error.  In every store reached from the
    empty one, the result is the sequence of events that were appended under
    that identifier (appending does not require the session), in append
    order, and its filter by type; it is the empty sequence exactly when no
    event was appended under the identifier. *)
Theorem C10_unknown_session_listing :
  ∀ (ops : list Trace.Op) (sid : string) (ty : EventType),
    getSession sid (Trace.run ops db0) = None →
    getEvents sid (Trace.run ops db0) = Trace.appended sid ops ∧
    getEventsByType sid ty (Trace.run ops db0)
    = filter (λ e, type e = ty) (Trace.appended sid ops) ∧
    (getEvents sid (Trace.run ops db0) = [] ↔ Trace.appended sid ops = []) ∧
    (sid ≠ "" →
     EventsRoute.GET (Some sid) None (Trace.run ops db0)
     = Success (Trace.appended sid ops)).
Proof.
  intros ops sid ty Hnone.
  pose proof (run_ledger_unknown ops sid db0 Hnone) as Hledger.
  change (getEvents sid db0) with (@nil ProctoringEvent) in Hledger.
  cbn [app] in Hledger.
  split; [exact Hledger|]. split.
  { unfold getEventsByType. unfold getEvents in Hledger. by rewrite Hledger. }
  split; [by rewrite Hledger|].
  intros Hsid. unfold EventsRoute.GET. cbn [EventsRoute.present negb].
  rewrite bool_decide_eq_false_2 by done. cbn [negb]. simpl.
  by rewrite Hledger.
Qed.

Lemma C10_unknown_session_listing_witness :
  let ops := [Trace.CreateSession "Jane Doe" 1700000000000 "k3j9x2abc" 1700000000000;
              Trace.AddEvent Examples.jane_id Examples.absence
                1700000011000 "q1w2e3r4t"] in
  getSession "nobody" (Trace.run ops db0) = None ∧
  getEvents "nobody" (Trace.run ops db0) = [].
Proof.
  intros ops. split; [reflexivity|].
  destruct (C10_unknown_session_listing ops "nobody" no_face eq_refl)
    as (Hlist & _).
  rewrite Hlist. reflexivity.
Defined.

(** * Further properties of the store and the routes *)

(** ** Creating and reading sessions *)

Lemma session_id_of_nonempty (clock : Z) (rnd : string) :
  session_id_of clock rnd ≠ "".
Proof. unfold session_id_of. discriminate. Qed.

Lemma createSession_stored name clock rnd date db :
  getSession (id (createSession name clock rnd date db).1)
    (createSession name clock rnd date db).2
  = Some (createSession name clock rnd date db).1 ∧
  events (createSession name clock rnd date db).2
    !! id (createSession name clock rnd date db).1 = Some [].
Proof.
  unfold createSession, getSession. cbn [fst snd sessions events id].
  by rewrite !lookup_insert_eq.
Qed.

Lemma createSession_other name clock rnd date db sid :
  sid ≠ session_id_of clock rnd →
  getSession sid (createSession name clock rnd date db).2 = getSession sid db ∧
  getEvents sid (createSession name clock rnd date db).2 = getEvents sid db.
Proof.
  intros Hne. unfold createSession, getSession, getEvents.
  cbn [snd sessions events id]. by rewrite !lookup_insert_ne.
Qed.

Lemma GET_events_all (sid : string) (db : InMemoryDatabase) :
  sid ≠ "" → EventsRoute.GET (Some sid) None db = Success (getEvents sid db).
Proof.
  intros Hsid. unfold EventsRoute.GET, EventsRoute.present.
  by rewrite bool_decide_eq_false_2.
Qed.

(** A session created through [POST /api/sessions] can be read back: the
    session route returns the very record the creation returned, the events
    route lists no event for it, and its report recommends the "Excellent"
    line alone -- whatever was stored under that identifier before.  Every
    other identifier keeps its session and its ledger. *)
Theorem created_session_reads_back :
  ∀ (name : string) (clock : Z) (rnd : string) (date : Z)
    (db : InMemoryDatabase),
    name ≠ "" →
    ∃ s db',
      SessionsRoute.POST (Parsed (JString name)) clock rnd date db
      = (Success s, db') ∧
      id s = session_id_of clock rnd ∧
      candidateName s = trim name ∧
      SessionRoute.GET (id s) db' = Success s ∧
      EventsRoute.GET (Some (id s)) None db' = Success [] ∧
      ReportRoute.GET_recommendations (id s) db'
      = Success ["Excellent interview integrity maintained throughout the session."] ∧
      (∀ sid, sid ≠ id s →
         getSession sid db' = getSession sid db ∧
         getEvents sid db' = getEvents sid db).
Proof.
  intros name clock rnd date db Hname.
  exists (createSession (trim name) clock rnd date db).1,
         (createSession (trim name) clock rnd date db).2.
  destruct (createSession_stored (trim name) clock rnd date db)
    as [Hsession Hledger].
  split.
  { unfold SessionsRoute.POST. cbn [truthy is_string].
    rewrite bool_decide_eq_false_2 by done. cbn [negb orb].
    by destruct (createSession _ _ _ _ _). }
  split; [reflexivity|]. split; [reflexivity|].
  split; [unfold SessionRoute.GET; by rewrite Hsession|].
  split.
  { rewrite GET_events_all by apply session_id_of_nonempty.
    unfold getEvents. by rewrite Hledger. }
  split.
  { unfold ReportRoute.GET_recommendations, getSessionStats.
    unfold getSession in Hsession. rewrite Hsession, Hledger. reflexivity. }
  intros sid Hsid. by apply createSession_other.
Qed.

Lemma created_session_reads_back_witness :
  ∃ s db',
    SessionsRoute.POST (Parsed (JString "  Jane Doe ")) 1700000000000
      "k3j9x2abc" 1700000000000 db0 = (Success s, db') ∧
    candidateName s = "Jane Doe" ∧
    SessionRoute.GET Examples.jane_id db' = Success s.
Proof.
  destruct (created_session_reads_back "  Jane Doe " 1700000000000 "k3j9x2abc"
              1700000000000 db0 ltac:(discriminate))
    as (s & db' & Hpost & Hid & Hname & Hget & _).
  exists s, db'. split; [exact Hpost|]. split; [exact Hname|].
  rewrite Hid in Hget. exact Hget.
Defined.

(** Two creations that read different (clock, random) pairs get different
    identifiers, so the second one leaves the first session and its ledger
    in place. *)
Theorem distinct_draws_keep_both_sessions :
  ∀ (name name' : string) (clock clock' : Z) (rnd rnd' : string)
    (date date' : Z) (db : InMemoryDatabase),
    (clock, rnd) ≠ (clock', rnd') →
    let first := createSession name clock rnd date db in
    let second := createSession name' clock' rnd' date' first.2 in
    id second.1 ≠ id first.1 ∧
    getSession (id first.1) second.2 = Some first.1 ∧
    getSession (id second.1) second.2 = Some second.1 ∧
    getEvents (id first.1) second.2 = [].
Proof.
  intros name name' clock clock' rnd rnd' date date' db Hne first second.
  assert (session_id_of clock rnd ≠ session_id_of clock' rnd') as Hids.
  { intros Heq. apply session_id_of_inj in Heq as [-> ->]. by apply Hne. }
  subst first second.
  unfold createSession, getSession, getEvents.
  cbn [fst snd sessions events id].
  split; [by intros Heq; apply Hids|].
  split.
  { rewrite lookup_insert_ne by (by intros Heq; apply Hids).
    by rewrite lookup_insert_eq. }
  split; [by rewrite lookup_insert_eq|].
  rewrite lookup_insert_ne by (by intros Heq; apply Hids).
  by rewrite lookup_insert_eq.
Qed.

Lemma distinct_draws_keep_both_sessions_witness :
  (1700000000000, "k3j9x2abc") ≠ (1700000000000, "z9y8x7w6v") ∧
  getSession Examples.jane_id
    (createSession "John Roe" 1700000000000 "z9y8x7w6v" 1700000000001
       Examples.jane_db).2
  = Some Examples.jane.
Proof.
  assert ((1700000000000, "k3j9x2abc") ≠ (1700000000000, "z9y8x7w6v")) as Hne.
  { discriminate. }
  split; [exact Hne|].
  destruct (distinct_draws_keep_both_sessions "Jane Doe" "John Roe"
              1700000000000 1700000000000 "k3j9x2abc" "z9y8x7w6v"
              1700000000000 1700000000001 db0 Hne) as (_ & Hfirst & _).
  exact Hfirst.
Defined.

(** ** Composing session updates *)

Lemma spread_no_updates (s : ProctoringSession) : spread s no_updates = s.
Proof. by destruct s as [? ? ? [?|] ? ? ?]. Qed.


(** An update that carries no field (a [PATCH] with body [{}]) returns the
    stored session and leaves the whole store as it was; for an unknown
    identifier it returns nothing, again without changing the store. *)
Theorem empty_update_changes_nothing :
  ∀ (sid : string) (db : InMemoryDatabase),
    updateSession sid no_updates db = (getSession sid db, db) ∧
    (SessionRoute.PATCH sid (Parsed no_updates) db).2 = db.
Proof.
  intros sid db.
  assert (updateSession sid no_updates db = (getSession sid db, db)) as Hupd.
  { destruct (getSession sid db) as [s|] eqn:Hs.
    - rewrite (updateSession_present _ _ _ _ Hs), spread_no_updates.
      unfold getSession in Hs. rewrite insert_id by done. by destruct db.
    - by rewrite (updateSession_absent _ _ _ Hs). }
  split; [exact Hupd|].
  unfold SessionRoute.PATCH. rewrite Hupd. by destruct (getSession sid db).
Qed.



(** ** Requests that fail *)

Lemma POST_event_failure_keeps_store (body : RequestBody EventsRoute.EventBody)
    (date clock : Z) (rnd : string) (db : InMemoryDatabase) status error :
  (EventsRoute.POST body date clock rnd db).1 = Failure status error →
  (EventsRoute.POST body date clock rnd db).2 = db.
Proof.
  unfold EventsRoute.POST. destruct body as [|b]; [done|].
  destruct (_ || _); [done|].
  destruct (EventsRoute.validTypes _); [|done].
  destruct (_ && _); [done|].
  by destruct (addEvent _ _ _ _ _).
Qed.

Lemma POST_session_failure_keeps_store (body : RequestBody JsValue)
    (clock : Z) (rnd : string) (date : Z) (db : InMemoryDatabase) status error :
  (SessionsRoute.POST body clock rnd date db).1 = Failure status error →
  (SessionsRoute.POST body clock rnd date db).2 = db.
Proof.
  unfold SessionsRoute.POST. destruct body as [|v]; [done|].
  destruct (_ || _); [done|].
  destruct v; try done; by destruct (createSession _ _ _ _ _).
Qed.

Lemma PATCH_failure_keeps_store (sid : string) (body : RequestBody SessionUpdates)
    (db : InMemoryDatabase) status error :
  (SessionRoute.PATCH sid body db).1 = Failure status error →
  (SessionRoute.PATCH sid body db).2 = db.
Proof.
  unfold SessionRoute.PATCH. destruct body as [|u]; [done|].
  destruct (getSession sid db) as [s|] eqn:Hs.
  - by rewrite (updateSession_present _ _ _ _ Hs).
  - by rewrite (updateSession_absent _ _ _ Hs).
Qed.

(** A request that is answered with an error has changed nothing: whenever
    one of the three writing routes (create session, update session, log
    event) returns a failure, whatever the status, the store after the
    request is the store before it. *)
Theorem failed_request_changes_nothing :
  ∀ (db : InMemoryDatabase) (status : Z) (error : string),
    (∀ body clock rnd date,
       (SessionsRoute.POST body clock rnd date db).1 = Failure status error →
       (SessionsRoute.POST body clock rnd date db).2 = db) ∧
    (∀ sid body,
       (SessionRoute.PATCH sid body db).1 = Failure status error →
       (SessionRoute.PATCH sid body db).2 = db) ∧
    (∀ body date clock rnd,
       (EventsRoute.POST body date clock rnd db).1 = Failure status error →
       (EventsRoute.POST body date clock rnd db).2 = db).
Proof.
  intros db status error. split; [|split].
  - intros body clock rnd date. apply POST_session_failure_keeps_store.
  - intros sid body. apply PATCH_failure_keeps_store.
  - intros body date clock rnd. apply POST_event_failure_keeps_store.
Qed.

Lemma failed_request_changes_nothing_witness :
  (SessionRoute.PATCH "ghost" (Parsed Examples.complete) Examples.jane_db).1
  = Failure 404 "Session not found" ∧
  (SessionRoute.PATCH "ghost" (Parsed Examples.complete) Examples.jane_db).2
  = Examples.jane_db.
Proof.
  split; [reflexivity|].
  destruct (failed_request_changes_nothing Examples.jane_db 404
              "Session not found") as (_ & Hpatch & _).
  apply Hpatch. reflexivity.
Defined.

(** ** Logging and listing events *)

Lemma GET_events_by_type (sid t : string) (ty : EventType)
    (db : InMemoryDatabase) :
  sid ≠ "" → EventsRoute.validTypes t = Some ty →
  EventsRoute.GET (Some sid) (Some t) db = Success (getEventsByType sid ty db).
Proof.
  intros Hsid Hty. unfold EventsRoute.GET.
  rewrite (validTypes_present t ty Hty). unfold EventsRoute.present.
  rewrite bool_decide_eq_false_2 by done. cbn [negb default]. simpl.
  by rewrite Hty.
Qed.

Lemma present_nonempty (s : string) :
  EventsRoute.present (Some s) = true → s ≠ "".
Proof.
  unfold EventsRoute.present. intros H ->.
  by rewrite bool_decide_eq_true_2 in H.
Qed.

(** An event logged through [POST /api/events] is the last one listed by
    [GET /api/events] for its session, both in the full listing and in the
    listing filtered by its own type; it carries the request's description
    and type, the server's clock as timestamp, and severity medium when the
    request gives no severity. *)
Theorem logged_event_is_listed_last :
  ∀ (b : EventsRoute.EventBody) (sid t : string) (ty : EventType)
    (date clock : Z) (rnd : string) (db : InMemoryDatabase),
    Spec.well_formed b →
    EventsRoute.b_sessionId b = Some sid →
    EventsRoute.b_type b = Some t →
    EventsRoute.validTypes t = Some ty →
    ∃ e db',
      EventsRoute.POST (Parsed b) date clock rnd db = (Success e, db') ∧
      type e = ty ∧ timestamp e = date ∧ sessionId e = sid ∧
      Some (description e) = EventsRoute.b_description b ∧
      (EventsRoute.present (EventsRoute.b_severity b) = false →
       severity e = medium) ∧
      EventsRoute.GET (Some sid) None db' = Success (getEvents sid db ++ [e]) ∧
      EventsRoute.GET (Some sid) (Some t) db'
      = Success (getEventsByType sid ty db ++ [e]).
Proof.
  intros b sid t ty date clock rnd db Hwf Hsid Ht Hty.
  destruct (POST_well_formed b date clock rnd db Hwf) as (ty' & sev & Hpost).
  cbv zeta in Hpost. rewrite Hsid in Hpost.
  change (default "" (Some sid)) with sid in Hpost.
  assert (ty' = ty ∧
          (EventsRoute.present (EventsRoute.b_severity b) = false → sev = medium))
    as [-> Hsev].
  { destruct Hwf as (Hp1 & Hp2 & _ & _).
    revert Hpost. unfold EventsRoute.POST. rewrite Hp1, Hp2, Hsid, Ht.
    rewrite (validTypes_present t ty Hty). cbn [negb orb default].
    simpl. rewrite Hty.
    destruct (EventsRoute.present (EventsRoute.b_severity b)) eqn:Hp; simpl.
    - destruct (negb _); [done|]. unfold addEvent. simpl.
      intros [= ? ?]. split; [done|]. intros; done.
    - unfold addEvent. simpl. intros [= ? ?]. by split. }
  assert (sid ≠ "") as Hne.
  { apply present_nonempty. destruct Hwf as (Hp1 & _). by rewrite Hsid in Hp1. }
  assert (is_Some (EventsRoute.b_description b)) as [d Hd].
  { destruct Hwf as (_ & Hp2 & _).
    destruct (EventsRoute.b_description b); [eauto|done]. }
  eexists _, _. split; [exact Hpost|].
  split; [reflexivity|]. split; [reflexivity|]. split; [reflexivity|].
  split; [by rewrite Hd|]. split; [exact Hsev|].
  split.
  - rewrite GET_events_all by done. by rewrite addEvent_ledger.
  - rewrite (GET_events_by_type sid t ty) by done.
    unfold getEventsByType.
    pose proof (addEvent_ledger sid
                  {| in_type := ty; in_timestamp := date;
                     in_description := default "" (EventsRoute.b_description b);
                     in_severity := sev;
                     in_metadata := EventsRoute.b_metadata b |} clock rnd db)
      as Hledger.
    unfold getEvents in Hledger. rewrite Hledger, filter_app.
    f_equal. rewrite filter_cons, filter_nil. by rewrite decide_True.
Qed.

Lemma logged_event_is_listed_last_witness :
  ∃ e db',
    EventsRoute.POST (Parsed Examples.ghost_body) 1700000011000 1700000011000
      "q1w2e3r4t" Examples.jane_db = (Success e, db') ∧
    EventsRoute.GET (Some "ghost") (Some "no_face") db' = Success [e].
Proof.
  assert (Spec.well_formed Examples.ghost_body) as Hwf.
  { split; [reflexivity|]. split; [reflexivity|]. split.
    - exists "no_face", no_face. split; reflexivity.
    - right. exists "high", high. split; reflexivity. }
  destruct (logged_event_is_listed_last Examples.ghost_body "ghost" "no_face"
              no_face 1700000011000 1700000011000 "q1w2e3r4t" Examples.jane_db
              Hwf eq_refl eq_refl eq_refl)
    as (e & db' & Hpost & _ & _ & _ & _ & _ & _ & Hget).
  exists e, db'. split; [exact Hpost|]. exact Hget.
Defined.

(** [GET /api/events] fails only on a missing or empty [sessionId] (status
    400, whatever the store and the type); with a session identifier it
    always succeeds, and a [type] parameter that is none of the four event
    types yields the empty list rather than an error. *)
Theorem listing_fails_only_without_session_id :
  ∀ (type : option string) (db : InMemoryDatabase),
    EventsRoute.GET None type db
    = Failure 400 "sessionId parameter is required" ∧
    EventsRoute.GET (Some "") type db
    = Failure 400 "sessionId parameter is required" ∧
    (∀ sid, sid ≠ "" → ∃ l, EventsRoute.GET (Some sid) type db = Success l ∧
                            sublist l (getEvents sid db)) ∧
    (∀ sid t, sid ≠ "" → t ≠ "" → EventsRoute.validTypes t = None →
       EventsRoute.GET (Some sid) (Some t) db = Success []).
Proof.
  intros type db. split; [reflexivity|]. split; [reflexivity|]. split.
  - intros sid Hsid. unfold EventsRoute.GET, EventsRoute.present.
    rewrite bool_decide_eq_false_2 by done. cbn [negb default].
    destruct type as [t|]; [|by eexists].
    destruct (negb (bool_decide (t = ""))); [|by eexists].
    destruct (EventsRoute.validTypes _).
    + eexists. split; [reflexivity|]. apply sublist_filter.
    + eexists. split; [reflexivity|]. apply sublist_filter.
  - intros sid t Hsid Ht Hty. unfold EventsRoute.GET, EventsRoute.present.
    rewrite !bool_decide_eq_false_2 by done. cbn [negb default].
    simpl. rewrite Hty. f_equal.
    induction (getEvents sid db) as [|e l IH]; [done|].
    rewrite filter_cons. by case_decide.
Qed.

Lemma listing_fails_only_without_session_id_witness :
  EventsRoute.GET (Some Examples.jane_id) (Some "focus_lost") Examples.jane_db
  = Success [].
Proof.
  destruct (listing_fails_only_without_session_id None Examples.jane_db)
    as (_ & _ & _ & Hunknown).
  apply Hunknown; [discriminate|discriminate|reflexivity].
Defined.

(** Every event of a ledger is listed under exactly one event type: the
    four listings by type are order-preserving sub-listings of the full
    listing and their lengths add up to its length. *)
Theorem listings_by_type_partition :
  ∀ (sid : string) (db : InMemoryDatabase),
    (length (getEventsByType sid focus_loss db)
     + length (getEventsByType sid no_face db)
     + length (getEventsByType sid multiple_faces db)
     + length (getEventsByType sid suspicious_object db)
     = length (getEvents sid db))%nat ∧
    (∀ ty, sublist (getEventsByType sid ty db) (getEvents sid db)) ∧
    (∀ ty e, e ∈ getEventsByType sid ty db ↔ e ∈ getEvents sid db ∧ type e = ty).
Proof.
  intros sid db. unfold getEventsByType, getEvents.
  generalize (default [] (events db !! sid)). intros l.
  split; [|split].
  - induction l as [|e l IH]; [done|].
    rewrite !filter_cons. destruct (type e); repeat case_decide; try done;
      cbn [length]; lia.
  - intros ty. apply sublist_filter.
  - intros ty e. rewrite list_elem_of_filter. tauto.
Qed.

(** ** Statistics and the score *)

Lemma count_types_total (evs : list ProctoringEvent) :
  count_type focus_loss evs + count_type no_face evs
  + count_type multiple_faces evs + count_type suspicious_object evs
  = Z.of_nat (length evs).
Proof.
  unfold count_type. induction evs as [|e evs IH]; [done|].
  rewrite !filter_cons. destruct (type e); repeat case_decide; try done;
    cbn [length]; lia.
Qed.

Lemma count_severities_total (evs : list ProctoringEvent) :
  count_severity low evs + count_severity medium evs + count_severity high evs
  = Z.of_nat (length evs).
Proof.
  unfold count_severity. induction evs as [|e evs IH]; [done|].
  rewrite !filter_cons. destruct (severity e); repeat case_decide; try done;
    cbn [length]; lia.
Qed.

Lemma deductions_by_severity (evs : list ProctoringEvent) :
  totalDeductions evs
  = 2 * count_severity low evs + 5 * count_severity medium evs
    + 10 * count_severity high evs.
Proof.
  rewrite totalDeductions_spec. unfold count_severity.
  induction evs as [|e evs IH]; [done|].
  cbn [Spec.deductions foldr]. fold (Spec.deductions evs). rewrite IH.
  rewrite !filter_cons. unfold Spec.weight.
  destruct (severity e); repeat case_decide; try done; cbn [length]; lia.
Qed.

Lemma getSessionStats_consistent :
  ∀ (sid : string) (db : InMemoryDatabase),
    (getSessionStats sid db = None ↔ getSession sid db = None) ∧
    (∀ stats, getSessionStats sid db = Some stats →
       getSession sid db = Some (session stats) ∧
       stats_events stats = getEvents sid db ∧
       n_focus_loss (eventsByType stats) + n_no_face (eventsByType stats)
       + n_multiple_faces (eventsByType stats)
       + n_suspicious_object (eventsByType stats)
       = Z.of_nat (length (stats_events stats)) ∧
       n_low (eventsBySeverity stats) + n_medium (eventsBySeverity stats)
       + n_high (eventsBySeverity stats)
       = Z.of_nat (length (stats_events stats)) ∧
       totalDeductions (stats_events stats)
       = 2 * n_low (eventsBySeverity stats)
         + 5 * n_medium (eventsBySeverity stats)
         + 10 * n_high (eventsBySeverity stats)).
Proof.
  intros sid db. unfold getSessionStats, getSession, getEvents.
  destruct (sessions db !! sid) as [s|]; split; try done.
  intros stats [= <-]. cbn.
  split; [done|]. split; [done|].
  split; [apply count_types_total|].
  split; [apply count_severities_total|apply deductions_by_severity].
Qed.


(** The numbers of [getSessionStats] are consistent with each other: the
    four counts by type add up to the number of events, so do the three
    counts by severity, and the deductions that [addEvent] sums over the
    ledger are 2, 5 and 10 times the low, medium and high counts.  Statistics
    exist exactly for the identifiers that name a session. *)
Theorem stats_counts_are_consistent :
  ∀ (sid : string) (db : InMemoryDatabase),
    (getSessionStats sid db = None ↔ getSession sid db = None) ∧
    (∀ stats, getSessionStats sid db = Some stats →
       getSession sid db = Some (session stats) ∧
       stats_events stats = getEvents sid db ∧
       n_focus_loss (eventsByType stats) + n_no_face (eventsByType stats)
       + n_multiple_faces (eventsByType stats)
       + n_suspicious_object (eventsByType stats)
       = Z.of_nat (length (stats_events stats)) ∧
       n_low (eventsBySeverity stats) + n_medium (eventsBySeverity stats)
       + n_high (eventsBySeverity stats)
       = Z.of_nat (length (stats_events stats)) ∧
       totalDeductions (stats_events stats)
       = 2 * n_low (eventsBySeverity stats)
         + 5 * n_medium (eventsBySeverity stats)
         + 10 * n_high (eventsBySeverity stats)).
Proof. exact getSessionStats_consistent. Qed.

Lemma stats_counts_are_consistent_witness :
  ∃ stats,
    getSessionStats Examples.jane_id
      (addEvent Examples.jane_id Examples.absence 1700000011000 "q1w2e3r4t"
         Examples.jane_db).2 = Some stats ∧
    totalDeductions (stats_events stats)
    = 2 * n_low (eventsBySeverity stats)
      + 5 * n_medium (eventsBySeverity stats)
      + 10 * n_high (eventsBySeverity stats).
Proof.
  eexists. split; [reflexivity|].
  destruct (stats_counts_are_consistent Examples.jane_id
              (addEvent Examples.jane_id Examples.absence 1700000011000
                 "q1w2e3r4t" Examples.jane_db).2) as [_ Hstats].
  destruct (Hstats _ eq_refl) as (_ & _ & _ & _ & Hded).
  exact Hded.
Defined.

Lemma reachable_score_by_counts :
  ∀ (ops : list Trace.Op) (sid : string) (stats : SessionStats),
    Forall Trace.derived_untouched ops →
    getSessionStats sid (Trace.run ops db0) = Some stats →
    integrityScore (session stats)
    = Z.max 0 (100 - (2 * n_low (eventsBySeverity stats)
                      + 5 * n_medium (eventsBySeverity stats)
                      + 10 * n_high (eventsBySeverity stats))) ∧
    totalEvents (session stats)
    = n_low (eventsBySeverity stats) + n_medium (eventsBySeverity stats)
      + n_high (eventsBySeverity stats).
Proof.
  intros ops sid stats Hops Hstats.
  destruct (getSessionStats_consistent sid (Trace.run ops db0)) as [_ Hcons].
  destruct (Hcons stats Hstats) as (Hs & Hevs & _ & Hsev & Hded).
  destruct (run_cache ops db0 Hops cache_invariant_db0 sid _ Hs)
    as [Hscore Htotal].
  rewrite Hscore, Htotal, <- Hevs, Hsev. split; [|done].
  unfold Spec.score. by rewrite <- totalDeductions_spec, Hded.
Qed.


(** In every store reached from the empty one without direct writes of the
    derived fields, the score shown for a session is determined by its
    severity counts: max(0, 100 - (2 low + 5 medium + 10 high)), and the
    stored number of events is the sum of the three counts. *)
Theorem score_follows_severity_counts :
  ∀ (ops : list Trace.Op) (sid : string) (stats : SessionStats),
    Forall Trace.derived_untouched ops →
    getSessionStats sid (Trace.run ops db0) = Some stats →
    integrityScore (session stats)
    = Z.max 0 (100 - (2 * n_low (eventsBySeverity stats)
                      + 5 * n_medium (eventsBySeverity stats)
                      + 10 * n_high (eventsBySeverity stats))) ∧
    totalEvents (session stats)
    = n_low (eventsBySeverity stats) + n_medium (eventsBySeverity stats)
      + n_high (eventsBySeverity stats).
Proof. exact reachable_score_by_counts. Qed.

Lemma score_follows_severity_counts_witness :
  let ops := [Trace.CreateSession "Jane Doe" 1700000000000 "k3j9x2abc" 1700000000000;
              Trace.AddEvent Examples.jane_id Examples.absence
                1700000011000 "q1w2e3r4t"] in
  ∃ stats, getSessionStats Examples.jane_id (Trace.run ops db0) = Some stats ∧
           n_high (eventsBySeverity stats) = 1 ∧
           integrityScore (session stats) = 90.
Proof.
  intros ops.
  assert (Forall Trace.derived_untouched ops) as Hops.
  { repeat constructor. }
  eexists. split; [reflexivity|]. split; [reflexivity|].
  destruct (score_follows_severity_counts ops Examples.jane_id _ Hops eq_refl)
    as [Hscore _].
  rewrite Hscore. reflexivity.
Defined.

(** When the stored score of a session agrees with its ledger, appending an
    event lowers it by exactly the weight of the event's severity, stopping
    at 0: the score never rises, and it falls strictly as long as it is
    positive. *)
Theorem append_lowers_score_by_weight :
  ∀ (db : InMemoryDatabase) (sid : string) (s : ProctoringSession)
    (ev : EventInput) (clock : Z) (rnd : string),
    getSession sid db = Some s →
    integrityScore s = Spec.score (getEvents sid db) →
    ∃ s', getSession sid (addEvent sid ev clock rnd db).2 = Some s' ∧
          integrityScore s'
          = Z.max 0 (integrityScore s - severityWeights (in_severity ev)) ∧
          integrityScore s' ≤ integrityScore s ∧
          (0 < integrityScore s → integrityScore s' < integrityScore s).
Proof.
  intros db sid s ev clock rnd Hs Hcache.
  eexists. split; [by apply addEvent_session_present|].
  cbn [integrityScore]. rewrite addEvent_ledger, Hcache.
  unfold Spec.score, Spec.deductions. rewrite foldr_app.
  cbn [foldr]. fold Spec.deductions.
  assert (∀ (l : list ProctoringEvent) (w : Z),
            foldr (λ e total, Spec.weight (severity e) + total) w l
            = Spec.deductions l + w) as Hshift.
  { intros l w. unfold Spec.deductions.
    induction l as [|e l IH]; cbn [foldr]; [lia|]. rewrite IH. lia. }
  rewrite !Hshift. unfold addEvent. cbn [fst severity].
  assert (Spec.weight (in_severity ev) = severityWeights (in_severity ev))
    as -> by reflexivity.
  assert (0 < severityWeights (in_severity ev)) as Hw.
  { by destruct (in_severity ev). }
  repeat split; lia.
Qed.

Lemma append_lowers_score_by_weight_witness :
  ∃ s', getSession Examples.jane_id
          (addEvent Examples.jane_id Examples.absence 1700000011000 "q1w2e3r4t"
             Examples.jane_db).2 = Some s' ∧
        integrityScore s' = 90.
Proof.
  destruct (append_lowers_score_by_weight Examples.jane_db Examples.jane_id
              Examples.jane Examples.absence 1700000011000 "q1w2e3r4t"
              eq_refl eq_refl) as (s' & Hs' & Hscore & _).
  exists s'. split; [exact Hs'|]. rewrite Hscore. reflexivity.
Defined.

(** The deductions summed by [addEvent] do not depend on the order of the
    ledger: two ledgers with the same events in a different order give the
    same total and hence the same score. *)
Theorem deductions_ignore_order :
  ∀ evs evs' : list ProctoringEvent,
    evs ≡ₚ evs' →
    totalDeductions evs = totalDeductions evs' ∧
    Spec.score evs = Spec.score evs'.
Proof.
  intros evs evs' Hperm.
  assert (Spec.deductions evs = Spec.deductions evs') as Heq.
  { assert (∀ e l, Spec.deductions (e :: l)
                     = Spec.weight (severity e) + Spec.deductions l) as Hcons
      by reflexivity.
    induction Hperm as [|e l l' _ IH|e e' l|l l' l'' _ IH1 _ IH2];
      rewrite ?Hcons; lia. }
  rewrite !totalDeductions_spec. unfold Spec.score. by rewrite Heq.
Qed.

Lemma deductions_ignore_order_witness :
  totalDeductions
    [Examples.ghost_event;
     (addEvent "s" (mkEventInput focus_loss 5 "away" medium None) 5 "r" db0).1]
  = totalDeductions
      [(addEvent "s" (mkEventInput focus_loss 5 "away" medium None) 5 "r" db0).1;
       Examples.ghost_event].
Proof.
  apply deductions_ignore_order. apply Permutation_swap.
Defined.

(** The duration reported for a session that has an end time does not depend
    on the clock: it is the time between start and end in seconds, rounded
    to the nearest second (a half second going up), so it is off by at most
    500 ms and is never negative when the end is not before the start.  For
    a session without end time it grows with the clock. *)
Theorem stats_duration_rounds_to_seconds :
  ∀ (sid : string) (db : InMemoryDatabase) (s : ProctoringSession)
    (clock : Z),
    getSession sid db = Some s →
    (∀ e, endTime s = Some e →
       ∃ d, stats_duration sid clock db = Some d ∧
            (∀ clock', stats_duration sid clock' db = Some d) ∧
            -500 < 1000 * d - (e - startTime s) ≤ 500 ∧
            (startTime s ≤ e → 0 ≤ d)) ∧
    (endTime s = None →
       ∃ d, stats_duration sid clock db = Some d ∧
            -500 < 1000 * d - (clock - startTime s) ≤ 500 ∧
            (∀ clock' d', clock ≤ clock' →
               stats_duration sid clock' db = Some d' → d ≤ d')).
Proof.
  intros sid db s clock Hs. unfold getSession in Hs.
  unfold stats_duration, round_div. rewrite Hs.
  change (2 * 1000) with 2000. split.
  - intros e ->. eexists. split; [reflexivity|]. split; [done|].
    split.
    + pose proof (Z.div_mod (2 * (e - startTime s) + 1000) 2000 ltac:(lia)).
      pose proof (Z.mod_pos_bound (2 * (e - startTime s) + 1000) 2000
                    ltac:(lia)).
      lia.
    + intros Hle. apply Z.div_pos; lia.
  - intros ->. eexists. split; [reflexivity|]. split.
    + pose proof (Z.div_mod (2 * (clock - startTime s) + 1000) 2000 ltac:(lia)).
      pose proof (Z.mod_pos_bound (2 * (clock - startTime s) + 1000) 2000
                    ltac:(lia)).
      lia.
    + intros clock' d' Hle [= <-]. apply Z.div_le_mono; lia.
Qed.

Lemma stats_duration_rounds_to_seconds_witness :
  ∃ d, stats_duration Examples.jane_id 1700000001499 Examples.jane_db = Some d ∧
       -500 < 1000 * d - 1499 ≤ 500.
Proof.
  destruct (stats_duration_rounds_to_seconds Examples.jane_id Examples.jane_db
              Examples.jane 1700000001499 eq_refl) as [_ Hopen].
  destruct (Hopen eq_refl) as (d & Hd & Hbound & _).
  exists d. split; [exact Hd|]. exact Hbound.
Defined.

(** ** Recommendations and reports *)

Lemma count_type_positive (ty : EventType) (evs : list ProctoringEvent) :
  0 < count_type ty evs ↔ ∃ e, e ∈ evs ∧ type e = ty.
Proof.
  unfold count_type. split.
  - intros Hpos. destruct (filter (λ e, type e = ty) evs) as [|e l] eqn:Hf;
      [simpl in Hpos; lia|].
    assert (e ∈ filter (λ e, type e = ty) evs) as Hin
      by (rewrite Hf; apply list_elem_of_here).
    apply list_elem_of_filter in Hin as [Hty He]. by exists e.
  - intros (e & He & Hty).
    assert (e ∈ filter (λ e, type e = ty) evs) as Hin
      by (by apply list_elem_of_filter).
    destruct (filter (λ e, type e = ty) evs); [by apply elem_of_nil in Hin|].
    simpl. lia.
Qed.

Lemma recommend_distinct (score : Z) (byType : EventsByType)
    (bySeverity : EventsBySeverity) :
  NoDup (Spec.recommend score byType bySeverity) ∧
  (1 ≤ length (Spec.recommend score byType bySeverity) ≤ 5)%nat.
Proof.
  unfold Spec.recommend.
  destruct (tier_message_cases score) as [-> | [-> | [-> | ->]]];
    unfold Spec.advisory; repeat case_decide;
    (split; [apply (bool_decide_unpack _); vm_compute; reflexivity
            |cbn [app length]; lia]).
Qed.

(** A recommendation list has between one and five lines and never repeats
    a line; this holds for both report routes and every input. *)
Theorem recommendations_are_few_and_distinct :
  ∀ stats : SessionStats,
    NoDup (ReportRoute.generateRecommendations stats) ∧
    (1 ≤ length (ReportRoute.generateRecommendations stats) ≤ 5)%nat ∧
    NoDup (BatchRoute.generateRecommendations stats) ∧
    (1 ≤ length (BatchRoute.generateRecommendations stats) ≤ 5)%nat.
Proof.
  intros stats.
  change (BatchRoute.generateRecommendations stats)
    with (ReportRoute.generateRecommendations stats).
  rewrite generateRecommendations_spec.
  destruct (recommend_distinct (integrityScore (session stats))
              (eventsByType stats) (eventsBySeverity stats)) as [Hnd Hlen].
  done.
Qed.

Lemma recommend_advisories (score : Z) (byType : EventsByType)
    (bySeverity : EventsBySeverity) :
  ("Candidate frequently lost focus. Consider environment assessment."
     ∈ Spec.recommend score byType bySeverity
   ↔ 3 < n_focus_loss byType) ∧
  ("Suspicious objects detected. Verify candidate workspace setup."
     ∈ Spec.recommend score byType bySeverity
   ↔ 0 < n_suspicious_object byType) ∧
  ("Multiple faces detected. Investigate potential unauthorized assistance."
     ∈ Spec.recommend score byType bySeverity
   ↔ 0 < n_multiple_faces byType) ∧
  ("Multiple high-severity events recorded. Detailed investigation required."
     ∈ Spec.recommend score byType bySeverity
   ↔ 2 < n_high bySeverity) ∧
  ("Excellent interview integrity maintained throughout the session."
     ∈ Spec.recommend score byType bySeverity
   ↔ 90 ≤ score).
Proof.
  split; [advisory_iff score|]. split; [advisory_iff score|].
  split; [advisory_iff score|]. split; [advisory_iff score|].
  rewrite recommend_elem. unfold Spec.tier_message. split.
  - intros [Htier|[[? Hl]|[[? Hl]|[[? Hl]|[? Hl]]]]]; try discriminate Hl.
    revert Htier. repeat case_decide; [done|discriminate..].
  - intros Hge. left. by rewrite decide_True.
Qed.

(** The advisories of a session's report are decided by its ledger alone:
    the assistance advisory appears exactly when the ledger holds an event of
    type multiple_faces, the workspace advisory exactly when it holds one of
    type suspicious_object, and the focus advisory exactly when it holds
    more than three of type focus_loss -- whatever score is stored. *)
Theorem ledger_decides_advisories :
  ∀ (sid : string) (db : InMemoryDatabase) (s : ProctoringSession),
    getSession sid db = Some s →
    ∃ recs,
      ReportRoute.GET_recommendations sid db = Success recs ∧
      ("Multiple faces detected. Investigate potential unauthorized assistance."
         ∈ recs
       ↔ ∃ e, e ∈ getEvents sid db ∧ type e = multiple_faces) ∧
      ("Suspicious objects detected. Verify candidate workspace setup." ∈ recs
       ↔ ∃ e, e ∈ getEvents sid db ∧ type e = suspicious_object) ∧
      ("Candidate frequently lost focus. Consider environment assessment."
         ∈ recs
       ↔ (3 < length (getEventsByType sid focus_loss db))%nat).
Proof.
  intros sid db s Hs. unfold getSession in Hs.
  unfold ReportRoute.GET_recommendations, getSessionStats. rewrite Hs.
  eexists. split; [reflexivity|].
  rewrite generateRecommendations_spec.
  destruct (recommend_advisories (integrityScore s)
              (mkByType (count_type focus_loss (getEvents sid db))
                 (count_type no_face (getEvents sid db))
                 (count_type multiple_faces (getEvents sid db))
                 (count_type suspicious_object (getEvents sid db)))
              (mkBySeverity (count_severity low (getEvents sid db))
                 (count_severity medium (getEvents sid db))
                 (count_severity high (getEvents sid db))))
    as (Hfocus & Hsusp & Hmulti & _).
  cbn [n_focus_loss n_suspicious_object n_multiple_faces] in *.
  rewrite count_type_positive in Hsusp, Hmulti.
  split; [exact Hmulti|]. split; [exact Hsusp|].
  etrans; [exact Hfocus|]. unfold count_type, getEventsByType, getEvents. lia.
Qed.

Lemma ledger_decides_advisories_witness :
  ∃ recs,
    ReportRoute.GET_recommendations Examples.jane_id
      (addEvent Examples.jane_id
         (mkEventInput multiple_faces 1700000005000
            "3 faces detected in frame" high None)
         1700000005000 "a1b2c3d4e" Examples.jane_db).2 = Success recs ∧
    "Multiple faces detected. Investigate potential unauthorized assistance."
      ∈ recs.
Proof.
  destruct (ledger_decides_advisories Examples.jane_id
              (addEvent Examples.jane_id
                 (mkEventInput multiple_faces 1700000005000
                    "3 faces detected in frame" high None)
                 1700000005000 "a1b2c3d4e" Examples.jane_db).2
              _ eq_refl) as (recs & Hget & Hmulti & _).
  exists recs. split; [exact Hget|]. apply Hmulti.
  eexists. split; [apply list_elem_of_here|reflexivity].
Defined.

(** In every store reached from the empty one without direct writes of the
    derived fields, the report of a session cannot praise and alarm at once:
    when the investigation advisory (more than two high-severity events) is
    present, the score is at most 70 and the "Excellent" line is absent; and
    a report with the "Excellent" line covers at most five events. *)
Theorem investigation_excludes_excellent :
  ∀ (ops : list Trace.Op) (sid : string) (stats : SessionStats),
    Forall Trace.derived_untouched ops →
    getSessionStats sid (Trace.run ops db0) = Some stats →
    let recs := ReportRoute.generateRecommendations stats in
    ("Multiple high-severity events recorded. Detailed investigation required."
       ∈ recs →
     integrityScore (session stats) ≤ 70 ∧
     "Excellent interview integrity maintained throughout the session." ∉ recs) ∧
    ("Excellent interview integrity maintained throughout the session." ∈ recs →
     (length (stats_events stats) ≤ 5)%nat).
Proof.
  intros ops sid stats Hops Hstats recs. subst recs.
  destruct (reachable_score_by_counts ops sid stats Hops Hstats)
    as [Hscore _].
  destruct (getSessionStats_consistent sid (Trace.run ops db0)) as [_ Hcons].
  destruct (Hcons stats Hstats) as (_ & _ & _ & Hsev & _).
  assert (0 ≤ n_low (eventsBySeverity stats) ∧
          0 ≤ n_medium (eventsBySeverity stats) ∧
          0 ≤ n_high (eventsBySeverity stats)) as (Hl & Hm & Hh).
  { revert Hstats. unfold getSessionStats.
    destruct (sessions _ !! sid); [|done]. intros [= <-]. cbn.
    unfold count_severity. lia. }
  rewrite generateRecommendations_spec.
  destruct (recommend_advisories (integrityScore (session stats))
              (eventsByType stats) (eventsBySeverity stats))
    as (_ & _ & _ & Hinv & Hexc).
  rewrite Hinv, Hexc. split.
  - intros Hhigh. lia.
  - intros Hge. lia.
Qed.

Lemma investigation_excludes_excellent_witness :
  let ops := [Trace.CreateSession "Jane Doe" 1700000000000 "k3j9x2abc" 1700000000000;
              Trace.AddEvent Examples.jane_id Examples.absence
                1700000011000 "q1w2e3r4t"] in
  ∃ stats, getSessionStats Examples.jane_id (Trace.run ops db0) = Some stats ∧
           (length (stats_events stats) ≤ 5)%nat.
Proof.
  intros ops.
  assert (Forall Trace.derived_untouched ops) as Hops.
  { repeat constructor. }
  eexists. split; [reflexivity|].
  destruct (investigation_excludes_excellent ops Examples.jane_id _ Hops eq_refl)
    as [_ Hexc].
  apply Hexc. apply (bool_decide_unpack _). vm_compute. reflexivity.
Defined.

Lemma report_GET_present sid clock generatedAt db s :
  getSession sid db = Some s →
  ∃ r, ReportRoute.GET sid clock generatedAt db = Success r ∧
       ReportRoute.rep_session r = s ∧
       ReportRoute.rep_timeline r
       = map (λ event, ReportRoute.mkEntry (timestamp event) (type event)
                         (description event) (severity event))
           (getEvents sid db) ∧
       ReportRoute.sum_totalEvents (ReportRoute.rep_summary r)
       = Z.of_nat (length (getEvents sid db)) ∧
       ReportRoute.sum_integrityScore (ReportRoute.rep_summary r)
       = integrityScore s ∧
       ReportRoute.rep_generatedAt r = generatedAt.
Proof.
  intros Hs. unfold getSession in Hs.
  unfold ReportRoute.GET, getSessionStats, stats_duration, getEvents.
  rewrite Hs. eexists. split; [reflexivity|]. by cbn.
Qed.

(** The report of a session counts its own timeline: the route answers 404
    exactly for identifiers that name no session, and otherwise the
    [totalEvents] of the summary is the number of timeline entries, which are
    the events of the ledger in ledger order -- also when the stored
    [totalEvents] of the session was overwritten by an update; the summary's
    score is the stored one. *)
Theorem report_counts_its_timeline :
  ∀ (sid : string) (clock generatedAt : Z) (db : InMemoryDatabase),
    (ReportRoute.GET sid clock generatedAt db
     = Failure 404 "Session not found" ↔ getSession sid db = None) ∧
    (∀ r, ReportRoute.GET sid clock generatedAt db = Success r →
       ReportRoute.sum_totalEvents (ReportRoute.rep_summary r)
       = Z.of_nat (length (ReportRoute.rep_timeline r)) ∧
       ReportRoute.tl_description <$> ReportRoute.rep_timeline r
       = description <$> getEvents sid db ∧
       ReportRoute.tl_timestamp <$> ReportRoute.rep_timeline r
       = timestamp <$> getEvents sid db ∧
       Some (ReportRoute.sum_integrityScore (ReportRoute.rep_summary r))
       = integrityScore <$> getSession sid db ∧
       ReportRoute.rep_recommendations r ≠ []).
Proof.
  intros sid clock generatedAt db.
  destruct (getSession sid db) as [s|] eqn:Hs.
  - destruct (report_GET_present sid clock generatedAt db s Hs)
      as (r & Hget & Hsess & Htl & Htotal & Hscore & _).
    rewrite Hget. split; [done|].
    intros r' [= <-]. rewrite Htotal, Htl, Hscore, length_map.
    split; [done|]. rewrite <- !list_fmap_compose.
    split; [done|]. split; [done|]. split; [done|].
    revert Hget. unfold ReportRoute.GET.
    destruct (getSessionStats sid db) as [stats|]; [|by destruct stats_duration].
    destruct (stats_duration sid clock db); [|done].
    intros [= <-]. cbn [ReportRoute.rep_recommendations].
    rewrite generateRecommendations_spec. done.
  - unfold getSession in Hs.
    unfold ReportRoute.GET, getSessionStats. rewrite Hs. done.
Qed.

Lemma report_counts_its_timeline_witness :
  let db1 := (updateSession Examples.jane_id
                (mkUpdates None None None None None (Some 7) None)
                (addEvent Examples.jane_id Examples.absence 1700000011000
                   "q1w2e3r4t" Examples.jane_db).2).2 in
  totalEvents <$> getSession Examples.jane_id db1 = Some 7 ∧
  ∃ r, ReportRoute.GET Examples.jane_id 1700000020000 1700000020000 db1
       = Success r ∧
       ReportRoute.sum_totalEvents (ReportRoute.rep_summary r) = 1.
Proof.
  intros db1. split; [reflexivity|].
  eexists. split; [reflexivity|].
  destruct (report_counts_its_timeline Examples.jane_id 1700000020000
              1700000020000 db1) as [_ Hreport].
  destruct (Hreport _ eq_refl) as (Htotal & _).
  rewrite Htotal. reflexivity.
Defined.

(** ** The duration shown in a report *)

Lemma pretty_N_go_avoids (c : ascii) (x : N) (s : string) :
  (∀ d, pretty_N_char d ≠ c) →
  Derived.avoids c s → Derived.avoids c (pretty_N_go x s).
Proof.
  intros Hc. revert s. induction (N.lt_wf_0 x) as [x _ IH]; intros s Hs.
  destruct (decide (x = 0)%N) as [->|Hx].
  - by rewrite pretty_N_go_0.
  - rewrite pretty_N_go_step by lia. apply IH.
    + apply N.div_lt; lia.
    + split; [apply Hc|done].
Qed.

Lemma pretty_Z_avoids (c : ascii) (z : Z) :
  (∀ d, pretty_N_char d ≠ c) → c ≠ "-"%char →
  Derived.avoids c (pretty z).
Proof.
  intros Hc Hdash.
  assert (∀ x : N, Derived.avoids c (pretty x)) as HN.
  { intros x. unfold pretty, pretty_N. case_decide.
    - split; [|done]. apply (Hc 0%N).
    - by apply pretty_N_go_avoids. }
  destruct z as [|p|p]; unfold pretty, pretty_Z.
  - split; [|done]. apply (Hc 0%N).
  - apply HN.
  - split; [done|apply HN].
Qed.

Lemma split_at_char (c : ascii) (a b r r' : string) :
  Derived.avoids c a → Derived.avoids c b →
  a +:+ String c r = b +:+ String c r' → a = b ∧ r = r'.
Proof.
  revert b. induction a as [|x a IH]; intros [|y b] Ha Hb Heq; simpl in *.
  - by simplify_eq.
  - destruct Hb as [Hy _]. by simplify_eq.
  - destruct Ha as [Hx _]. by simplify_eq.
  - destruct Ha as [_ Ha], Hb as [_ Hb]. simplify_eq.
    destruct (IH b Ha Hb) as [-> ->]; done.
Qed.

Lemma seconds_field (r : Z) :
  0 ≤ r < 60 →
  String.length (ReportRoute.padStart2 (pretty r)) = 2%nat ∧
  ∀ r', 0 ≤ r' < 60 →
    ReportRoute.padStart2 (pretty r) = ReportRoute.padStart2 (pretty r') →
    r = r'.
Proof.
  assert (Forall (λ r, String.length (ReportRoute.padStart2 (pretty r)) = 2%nat ∧
                       Forall (λ r', ReportRoute.padStart2 (pretty r)
                                     = ReportRoute.padStart2 (pretty r') →
                                     r = r') (seqZ 0 60))
            (seqZ 0 60)) as Hall.
  { apply (bool_decide_unpack _). vm_compute. reflexivity. }
  rewrite Forall_seqZ in Hall. intros Hr.
  destruct (Hall r ltac:(lia)) as [Hlen Hinj]. split; [exact Hlen|].
  rewrite Forall_seqZ in Hinj. intros r' Hr'. apply Hinj. lia.
Qed.

(** The duration of a report, for a non-negative number of seconds, reads
    "minutes:seconds" with the minutes in decimal (they are not folded into
    hours) and the seconds on exactly two digits; different durations are
    shown differently. *)
Theorem report_duration_is_unambiguous :
  ∀ d : Z,
    0 ≤ d →
    (∃ seconds,
       ReportRoute.format_duration d = pretty (d / 60) +:+ ":" +:+ seconds ∧
       String.length seconds = 2%nat) ∧
    (∀ d', 0 ≤ d' →
       ReportRoute.format_duration d = ReportRoute.format_duration d' →
       d = d').
Proof.
  intros d Hd. unfold ReportRoute.format_duration.
  rewrite Z.rem_mod_nonneg by lia.
  pose proof (Z.mod_pos_bound d 60 ltac:(lia)) as Hr.
  destruct (seconds_field (d `mod` 60) Hr) as [Hlen Hinj].
  split; [by eexists|].
  intros d' Hd'. rewrite (Z.rem_mod_nonneg d') by lia.
  pose proof (Z.mod_pos_bound d' 60 ltac:(lia)) as Hr'.
  intros Heq.
  apply split_at_char in Heq as [Hmin Hsec];
    [|apply pretty_Z_avoids; [intros x; unfold pretty_N_char;
                              repeat case_match; discriminate
                             |discriminate]..].
  apply (inj pretty) in Hmin. apply Hinj in Hsec; [|done].
  rewrite (Z.div_mod d 60), (Z.div_mod d' 60) by lia. lia.
Qed.

Lemma report_duration_is_unambiguous_witness :
  0 ≤ 3725 ∧
  ∃ seconds,
    ReportRoute.format_duration 3725 = "62" +:+ ":" +:+ seconds ∧
    String.length seconds = 2%nat.
Proof.
  split; [lia|].
  exact (proj1 (report_duration_is_unambiguous 3725 ltac:(lia))).
Defined.

(** ** Batch reports *)

Lemma report_of_session sid clock generatedAt db :
  ReportRoute.rep_session <$> BatchRoute.report_of sid clock generatedAt db
  = getSession sid db.
Proof.
  unfold BatchRoute.report_of, getSessionStats, stats_duration, getSession.
  by destruct (sessions db !! sid).
Qed.

Lemma collect_sessions (ids : list string) (clock generatedAt : nat → Z)
    (db : InMemoryDatabase) :
  ∀ (i : nat) (reports : list ReportRoute.Report),
    ReportRoute.rep_session <$> BatchRoute.collect i ids clock generatedAt db reports
    = (ReportRoute.rep_session <$> reports)
      ++ omap (λ sid, getSession sid db) ids.
Proof.
  induction ids as [|sid ids IH]; intros i reports;
    cbn [BatchRoute.collect omap list_omap].
  - by rewrite app_nil_r.
  - rewrite IH. fold (omap (λ sid, getSession sid db) ids).
    pose proof (report_of_session sid (clock i) (generatedAt i) db) as Hr.
    destruct (BatchRoute.report_of sid (clock i) (generatedAt i) db) as [r|];
      cbn in Hr; rewrite <- Hr.
    + rewrite fmap_app. cbn. by rewrite <- app_assoc.
    + done.
Qed.

(** A batch request gets one report per requested identifier that names a
    session, in the order of the request and with repetitions kept;
    identifiers that name no session are skipped silently.  The request
    fails with 400 when the list of identifiers is missing or empty, and
    with 404 when none of them names a session. *)
Theorem batch_reports_follow_request :
  ∀ (ids : list string) (clock generatedAt : nat → Z) (db : InMemoryDatabase),
    BatchRoute.POST (Parsed None) clock generatedAt db
    = Failure 400 "Session IDs array is required" ∧
    (ids = [] →
     BatchRoute.POST (Parsed (Some ids)) clock generatedAt db
     = Failure 400 "Session IDs array is required") ∧
    (ids ≠ [] → omap (λ sid, getSession sid db) ids = [] →
     BatchRoute.POST (Parsed (Some ids)) clock generatedAt db
     = Failure 404 "No valid sessions found") ∧
    (omap (λ sid, getSession sid db) ids ≠ [] →
     ∃ reports,
       BatchRoute.POST (Parsed (Some ids)) clock generatedAt db
       = Success reports ∧
       ReportRoute.rep_session <$> reports
       = omap (λ sid, getSession sid db) ids).
Proof.
  intros ids clock generatedAt db.
  pose proof (collect_sessions ids clock generatedAt db 0 []) as Hcollect.
  cbn [fmap list_fmap app] in Hcollect.
  split; [reflexivity|]. split; [by intros ->|].
  unfold BatchRoute.POST. split.
  - intros Hids Hnone.
    rewrite bool_decide_eq_false_2 by (by destruct ids).
    rewrite Hnone in Hcollect.
    destruct (BatchRoute.collect 0 ids clock generatedAt db []); [done|].
    discriminate Hcollect.
  - intros Hsome.
    rewrite bool_decide_eq_false_2 by (by destruct ids).
    destruct (BatchRoute.collect 0 ids clock generatedAt db []) as [|r l] eqn:Hc.
    + by rewrite <- Hcollect in Hsome.
    + rewrite bool_decide_eq_false_2 by done. by eexists.
Qed.

Lemma batch_reports_follow_request_witness :
  ∃ reports,
    BatchRoute.POST (Parsed (Some ["ghost"; Examples.jane_id; Examples.jane_id]))
      (λ _, 1700000020000) (λ _, 1700000020000) Examples.jane_db
    = Success reports ∧
    ReportRoute.rep_session <$> reports = [Examples.jane; Examples.jane].
Proof.
  destruct (batch_reports_follow_request
              ["ghost"; Examples.jane_id; Examples.jane_id]
              (λ _, 1700000020000) (λ _, 1700000020000) Examples.jane_db)
    as (_ & _ & _ & Hsome).
  apply Hsome. discriminate.
Defined.

(** ** The batch summary *)

Lemma fold_sum_bounds {A : Type} (f : A → Z) (lo hi : Z) (l : list A) :
  Forall (λ x, lo ≤ f x ≤ hi) l →
  ∀ acc, acc + Z.of_nat (length l) * lo
         ≤ fold_left (λ sum x, sum + f x) l acc
         ≤ acc + Z.of_nat (length l) * hi.
Proof.
  induction 1 as [|x l Hx _ IH]; intros acc; cbn [fold_left length]; [lia|].
  specialize (IH (acc + f x)). lia.
Qed.

Lemma filter_length_bound {A : Type} (P : A → Prop) `{∀ x, Decision (P x)}
    (l : list A) :
  0 ≤ Z.of_nat (length (filter P l)) ≤ Z.of_nat (length l).
Proof. pose proof (length_filter P l). lia. Qed.

(** The overview of a batch summary is sound: the average score lies
    between the lowest and the highest score of the reports (so within 0 and
    100 when all scores are), the completed and the high-risk counts never
    exceed the number of sessions, and an empty batch gives zeros instead
    of dividing by zero.  The summary has 13 rows plus one per report, the
    detail rows in the order of the reports. *)
Theorem batch_summary_is_sound :
  ∀ (reports : list ReportRoute.Report) (generatedAt : string) (lo hi : Z),
    length (ReportGenerator.summary_rows reports generatedAt)
    = (13 + length reports)%nat ∧
    (∀ i r, reports !! i = Some r →
       ReportGenerator.summary_rows reports generatedAt !! (11 + i)%nat
       = Some (ReportGenerator.detail_row r)) ∧
    0 ≤ ReportGenerator.completedSessions reports
      ≤ ReportGenerator.totalSessions reports ∧
    0 ≤ ReportGenerator.highRiskSessions reports
      ≤ ReportGenerator.totalSessions reports ∧
    (reports = [] →
     ReportGenerator.averageScore reports = 0 ∧
     ReportGenerator.totalEventsAll reports = 0) ∧
    (reports ≠ [] →
     Forall (λ r, lo ≤ integrityScore (ReportRoute.rep_session r) ≤ hi) reports →
     lo ≤ ReportGenerator.averageScore reports ≤ hi).
Proof.
  intros reports generatedAt lo hi.
  split.
  { unfold ReportGenerator.summary_rows.
    rewrite !length_app, length_map. cbn [length]. lia. }
  split.
  { intros i r Hr. unfold ReportGenerator.summary_rows.
    rewrite lookup_app_r by (cbn [length]; lia).
    cbn [length]. replace (11 + i - 11)%nat with i by lia.
    rewrite lookup_app_l by (rewrite length_map; by eapply lookup_lt_Some).
    by rewrite list_lookup_fmap, Hr. }
  split; [apply filter_length_bound|].
  split; [apply filter_length_bound|].
  split; [by intros ->|].
  intros Hne Hall.
  unfold ReportGenerator.averageScore, ReportGenerator.totalSessions,
    ReportGenerator.scoreSum.
  assert (0 < Z.of_nat (length reports)) as Hn by (destruct reports; [done|simpl; lia]).
  assert ((Z.of_nat (length reports) >? 0) = true) as -> by (apply Z.gtb_lt; lia).
  pose proof (fold_sum_bounds (λ r, integrityScore (ReportRoute.rep_session r))
                lo hi reports Hall 0) as Hsum.
  cbn beta in Hsum. unfold round_div.
  set (total := fold_left _ reports 0) in *.
  set (n := Z.of_nat (length reports)) in *.
  split.
  - apply Z.div_le_lower_bound; [lia|]. nia.
  - assert ((2 * total + n) / (2 * n) < hi + 1); [|lia].
    apply Z.div_lt_upper_bound; [lia|]. nia.
Qed.

Lemma batch_summary_is_sound_witness :
  ∃ reports,
    BatchRoute.POST (Parsed (Some [Examples.jane_id]))
      (λ _, 1700000020000) (λ _, 1700000020000) Examples.jane_db
    = Success reports ∧
    0 ≤ ReportGenerator.averageScore reports ≤ 100.
Proof.
  eexists. split; [reflexivity|].
  eapply (batch_summary_is_sound _ "1/1/2024" 0 100); [discriminate|].
  repeat constructor; vm_compute; discriminate.
Defined.

(** ** More on the face-signal debouncer *)

(** The calls of one tick are disciplined: at most two calls are made, an
    absence call and a multiple-faces call never come together, and a tick
    with exactly one face makes neither of them and records the face as seen
    now; if moreover the gaze is on the screen, the tick makes no call at all
    and closes any look-away episode. *)
Theorem tick_call_discipline :
  ∀ (now : Z) (r : FaceDetectionResult) (st : FaceDetectionStats),
    (length (handleFaceDetection now r st).2 ≤ 2)%nat ∧
    (calls_of no_face (handleFaceDetection now r st).2 = [] ∨
     calls_of multiple_faces (handleFaceDetection now r st).2 = []) ∧
    (faceCount r = 1 →
     calls_of no_face (handleFaceDetection now r st).2 = [] ∧
     calls_of multiple_faces (handleFaceDetection now r st).2 = [] ∧
     lastFaceTime (handleFaceDetection now r st).1 = now ∧
     (isLookingAway r = false →
      (handleFaceDetection now r st).2 = [] ∧
      lookAwayStartTime (handleFaceDetection now r st).1 = None)).
Proof.
  intros now r st. split; [|split].
  - unfold handleFaceDetection. cbn [snd].
    destruct (Z.eqb_spec (faceCount r) 0) as [H0|H0].
    + rewrite H0. change (0 >? 1) with false.
      repeat case_match; cbn [app length]; lia.
    + cbn [andb]. repeat case_match; cbn [app length]; lia.
  - unfold handleFaceDetection, calls_of. cbn [snd].
    destruct (Z.eqb_spec (faceCount r) 0) as [H0|H0].
    + right. rewrite H0. change (0 >? 1) with false.
      repeat case_match; reflexivity.
    + left. cbn [andb]. repeat case_match; reflexivity.
  - intros H1. rewrite handle_lastFaceTime.
    unfold handleFaceDetection, calls_of. cbn [snd fst lookAwayStartTime].
    rewrite H1. change (1 =? 0) with false. change (1 >? 1) with false.
    change (1 >? 0) with true. cbn [andb app].
    split; [by repeat case_match|]. split; [by repeat case_match|].
    split; [done|]. intros ->. done.
Qed.

Lemma tick_call_discipline_witness :
  (handleFaceDetection 1700000001000 Examples.nominal
     (handleFaceDetection 1700000000000 Examples.away
        (initialStats 1699999999000)).1).2 = [].
Proof.
  destruct (tick_call_discipline 1700000001000 Examples.nominal
              (handleFaceDetection 1700000000000 Examples.away
                 (initialStats 1699999999000)).1) as (_ & _ & Hone).
  destruct (Hone eq_refl) as (_ & _ & _ & Hsilent).
  apply Hsilent. reflexivity.
Defined.

Lemma run_timed_calls (ticks : list Tick) (st : FaceDetectionStats) :
  map snd (run_timed ticks st) = (run ticks st).2.
Proof.
  revert st. induction ticks as [|[now r] ticks IH]; intros st; [done|].
  cbn [run_timed]. rewrite run_cons, map_app, IH. cbn [snd].
  f_equal. rewrite map_map. cbn. by rewrite map_id.
Qed.

Lemma times_of_app ty (l l' : list (Z * Emission)) :
  times_of ty (l ++ l') = times_of ty l ++ times_of ty l'.
Proof. unfold times_of. by rewrite filter_app, map_app. Qed.

(** The look-away check of one tick: either it makes no [focus_loss] call
    and the timer stays or restarts now, or it makes one, the timer it read
    was more than 5000 ms old, and the timer restarts now. *)
Lemma handle_focus_time now r st :
  (times_of focus_loss (map (λ c, (now, c)) (handleFaceDetection now r st).2) = []
   ∧ ∀ s, lookAwayStartTime (handleFaceDetection now r st).1 = Some s →
          s = now ∨ lookAwayStartTime st = Some s)
  ∨
  (times_of focus_loss (map (λ c, (now, c)) (handleFaceDetection now r st).2)
   = [now]
   ∧ lookAwayStartTime (handleFaceDetection now r st).1 = Some now
   ∧ ∃ s, lookAwayStartTime st = Some s ∧ 5000 < now - s).
Proof.
  unfold handleFaceDetection, times_of. cbn [fst snd lookAwayStartTime].
  destruct (isLookingAway r), (wasLookingAway st); cbn [andb negb].
  - destruct (lookAwayStartTime st) as [s|] eqn:Hs.
    + destruct (negb (s =? 0) && (now - s >? 5000)) eqn:Hfire.
      * right. apply andb_true_iff in Hfire as [_ Hlate].
        apply Z.gtb_lt in Hlate.
        split; [by repeat case_match|]. split; [done|]. eauto.
      * left. split; [by repeat case_match|]. intros s' [= <-]. by right.
    + left. split; [by repeat case_match|]. done.
  - replace (now - now) with 0 by lia. change (0 >? 5000) with false.
    rewrite andb_false_r. left. split; [by repeat case_match|].
    intros s [= <-]. by left.
  - left. split; [by repeat case_match|]. done.
  - left. split; [by repeat case_match|]. done.
Qed.

Lemma run_focus_spaced (ticks : list Tick) :
  ∀ (st : FaceDetectionStats) (t : Z) (last : option Z),
    Derived.clock_monotone t ticks →
    (∀ l, last = Some l →
       l ≤ t ∧ ∀ s, lookAwayStartTime st = Some s → l ≤ s) →
    Derived.spaced 5000 last (times_of focus_loss (run_timed ticks st)).
Proof.
  induction ticks as [|[now r] ticks IH]; intros st t last Hmono Hlast; [done|].
  destruct Hmono as [Hnow Hmono]. cbn [run_timed]. rewrite times_of_app.
  destruct (handle_focus_time now r st)
    as [[-> Hkeep]|(-> & Hstart & s & Hs & Hlate)]; cbn [app].
  - apply (IH _ now last Hmono). intros l Hl.
    destruct (Hlast l Hl) as [Hlt Hinv]. split; [lia|].
    intros s' Hs'. destruct (Hkeep s' Hs') as [->|Hold]; [lia|by apply Hinv].
  - cbn [Derived.spaced]. split.
    + destruct last as [l|]; [|done].
      destruct (Hlast l eq_refl) as [_ Hinv]. specialize (Hinv s Hs). lia.
    + apply (IH _ now (Some now) Hmono). intros l [= <-].
      split; [lia|]. intros s'. rewrite Hstart. intros [= <-]. lia.
Qed.

(** The debounce of [focus_loss] holds for every tick spacing: whenever the
    clock values of the ticks never go back, two [focus_loss] calls of a run
    are always more than 5000 ms apart, in every starting state and whatever
    the samples. *)
Theorem focus_loss_calls_are_spaced :
  ∀ (ticks : list Tick) (st : FaceDetectionStats) (t0 : Z),
    Derived.clock_monotone t0 ticks →
    map snd (run_timed ticks st) = (run ticks st).2 ∧
    Derived.spaced 5000 None (times_of focus_loss (run_timed ticks st)).
Proof.
  intros ticks st t0 Hmono. split; [apply run_timed_calls|].
  by apply (run_focus_spaced ticks st t0 None).
Qed.

Lemma focus_loss_calls_are_spaced_witness :
  Derived.spaced 5000 None
    (times_of focus_loss
       (run_timed (sampled 1700000000000 700 (replicate 20 Examples.away))
          (initialStats 1699999999000))).
Proof.
  apply (focus_loss_calls_are_spaced _ _ 1700000000000).
  vm_compute. repeat split; discriminate.
Defined.

Lemma handle_absence_time now r st :
  times_of no_face (map (λ c, (now, c)) (handleFaceDetection now r st).2) = []
  ∨ (times_of no_face (map (λ c, (now, c)) (handleFaceDetection now r st).2)
     = [now]
     ∧ 10000 < now - lastFaceTime st).
Proof.
  unfold handleFaceDetection, times_of. cbn [snd].
  destruct ((faceCount r =? 0) && (now - lastFaceTime st >? 10000)) eqn:Hfire.
  - right. apply andb_true_iff in Hfire as [_ Hlate]. apply Z.gtb_lt in Hlate.
    split; [by repeat case_match|lia].
  - left. by repeat case_match.
Qed.

Lemma run_absence_after_face (post : list Tick) (tf : Z) :
  ∀ (st : FaceDetectionStats) (t : Z),
    tf ≤ t → tf ≤ lastFaceTime st →
    Derived.clock_monotone t post →
    Forall (λ now, 10000 < now - tf) (times_of no_face (run_timed post st)).
Proof.
  induction post as [|[now r] post IH]; intros st t Ht Hlast Hmono;
    [apply Forall_nil_2|].
  destruct Hmono as [Hnow Hmono]. cbn [run_timed]. rewrite times_of_app.
  apply Forall_app. split.
  - destruct (handle_absence_time now r st) as [->|[-> Hlate]].
    + apply Forall_nil_2.
    + apply Forall_singleton. lia.
  - apply (IH _ now); [lia| |done]. rewrite handle_lastFaceTime.
    case_match; lia.
Qed.

(** No false absence alarm: in a run whose clock values never go back, a
    [no_face] call is never made within 10,000 ms after a tick that saw a
    face -- every [no_face] call that follows such a tick comes more than
    10,000 ms after it. *)
Theorem no_absence_alarm_within_ten_seconds :
  ∀ (pre post : list Tick) (tf : Z) (rf : FaceDetectionResult)
    (st : FaceDetectionStats),
    0 < faceCount rf →
    Derived.clock_monotone tf post →
    Forall (λ now, 10000 < now - tf)
      (times_of no_face
         (run_timed post (run (pre ++ [(tf, rf)]) st).1)).
Proof.
  intros pre post tf rf st Hface Hmono.
  apply (run_absence_after_face post tf _ tf); [lia| |done].
  rewrite run_app. cbn [fst]. rewrite run_cons. cbn [run fst].
  rewrite handle_lastFaceTime.
  assert ((faceCount rf >? 0) = true) as -> by (apply Z.gtb_lt; lia). lia.
Qed.

Lemma no_absence_alarm_within_ten_seconds_witness :
  Forall (λ now, 10000 < now - 1700000000000)
    (times_of no_face
       (run_timed (sampled 1700000001000 1000 (replicate 12 Examples.nobody))
          (run ([] ++ [(1700000000000, Examples.nominal)])
             (initialStats 1699999999000)).1)).
Proof.
  apply no_absence_alarm_within_ten_seconds; [reflexivity|].
  vm_compute. repeat split; discriminate.
Defined.

(** ** Suspicious objects *)

Lemma push_calls {A : Type} (f : A → Emission) (l : list A) (calls : list Emission) :
  fold_left (λ calls x, calls ++ [f x]) l calls = calls ++ map f l.
Proof.
  revert calls. induction l as [|x l IH]; intros calls; cbn [fold_left map].
  - by rewrite app_nil_r.
  - rewrite IH. by rewrite <- app_assoc.
Qed.

Lemma is_suspicious_spec (obj : ObjectDetection.DetectedObject) :
  ObjectDetection.is_suspicious obj = true ↔
  ObjectDetection.toLowerCase (ObjectDetection.class obj)
    ∈ ObjectDetection.SUSPICIOUS_CLASSES ∧
  (Q2Qc (QArith_base.Qmake 1 2) < ObjectDetection.obj_confidence obj)%Qc.
Proof.
  unfold ObjectDetection.is_suspicious.
  rewrite andb_true_iff, !bool_decide_eq_true. tauto.
Qed.

(** One poll of the object detector makes one [suspicious_object] call of
    severity high for each prediction whose class, compared without regard
    to letter case, is on the suspicious list and whose confidence is
    strictly above 0.5 -- in the order of the predictions, with no other
    call and no debouncing; [suspiciousCount] is the number of calls.  A
    prediction with confidence 0.5 or less, or of another class, is never
    reported. *)
Theorem poll_reports_each_suspicious_object :
  ∀ (percent : Qc → Z) (now : Z)
    (predictions : list ObjectDetection.DetectedObject)
    (prev : ObjectDetectionStats),
    let res := detectObjects percent now predictions prev in
    res.2 = map (λ obj, mkEmission suspicious_object
                          (object_description percent obj) high)
              (ObjectDetection.suspiciousObjects predictions) ∧
    suspiciousCount res.1 = Z.of_nat (length res.2) ∧
    currentObjects res.1 = ObjectDetection.class <$> predictions ∧
    lastDetectionTime res.1 = now ∧
    (∀ obj, obj ∈ ObjectDetection.suspiciousObjects predictions ↔
       obj ∈ predictions ∧
       ObjectDetection.toLowerCase (ObjectDetection.class obj)
         ∈ ObjectDetection.SUSPICIOUS_CLASSES ∧
       (Q2Qc (QArith_base.Qmake 1 2) < ObjectDetection.obj_confidence obj)%Qc) ∧
    (Forall (λ obj, (ObjectDetection.obj_confidence obj
                     ≤ Q2Qc (QArith_base.Qmake 1 2))%Qc) predictions →
     res.2 = []) ∧
    (∀ c, c ∈ res.2 → em_type c = suspicious_object ∧ em_severity c = high).
Proof.
  intros percent now predictions prev res. subst res.
  unfold detectObjects, handleObjectDetection.
  cbn [fst snd objects suspiciousObjects suspiciousCount currentObjects
       lastDetectionTime].
  rewrite push_calls. cbn [app].
  split; [done|]. split; [by rewrite length_map|].
  split; [done|]. split; [done|].
  split.
  { intros obj. unfold ObjectDetection.suspiciousObjects.
    rewrite list_elem_of_filter, is_suspicious_spec. tauto. }
  split.
  { intros Hlow. unfold ObjectDetection.suspiciousObjects.
    induction Hlow as [|obj l Hobj _ IH]; [done|].
    rewrite filter_cons. case_decide as Hs; [|exact IH].
    apply is_suspicious_spec in Hs as [_ Hs].
    exfalso. by eapply Qclt_not_le. }
  intros c Hc. apply list_elem_of_fmap in Hc as (obj & -> & _). done.
Qed.

Lemma poll_reports_each_suspicious_object_witness :
  let phone := ObjectDetection.mkObject "Cell Phone"
                 (Q2Qc (QArith_base.Qmake 9 10)) (0, 0, 0, 0)%Qc in
  let faint := ObjectDetection.mkObject "book"
                 (Q2Qc (QArith_base.Qmake 1 2)) (0, 0, 0, 0)%Qc in
  count_of suspicious_object
    (detectObjects (λ _, 90) 1700000000000 [faint; phone]
       (mkObjectStats [] 0 1699999999000)).2 = 1%nat.
Proof.
  intros phone faint.
  destruct (poll_reports_each_suspicious_object (λ _, 90) 1700000000000
              [faint; phone] (mkObjectStats [] 0 1699999999000))
    as (Hcalls & _).
  rewrite Hcalls. reflexivity.
Defined.

(** ** Trimming of candidate names *)

Lemma string_app_assoc (a b c : string) : (a +:+ b) +:+ c = a +:+ (b +:+ c).
Proof.
  induction a as [|x a IH]; [done|].
  change (String x a +:+ b) with (String x (a +:+ b)).
  change (String x (a +:+ b) +:+ c) with (String x ((a +:+ b) +:+ c)).
  by rewrite IH.
Qed.

Lemma rev_app_acc (s acc : string) :
  String.rev_app s acc = String.rev_app s "" +:+ acc.
Proof.
  revert acc. induction s as [|c s IH]; intros acc; cbn [String.rev_app].
  - done.
  - by rewrite (IH (String c acc)), (IH (String c "")), string_app_assoc.
Qed.

Lemma rev_cons (c : ascii) (s : string) :
  String.rev (String c s) = String.rev s +:+ String c "".
Proof. unfold String.rev. cbn [String.rev_app]. apply rev_app_acc. Qed.

Lemma rev_snoc (s : string) (c : ascii) :
  String.rev (s +:+ String c "") = String c (String.rev s).
Proof.
  induction s as [|d s IH]; [done|].
  change (String d s +:+ String c "") with (String d (s +:+ String c "")).
  by rewrite !rev_cons, IH.
Qed.

Lemma rev_involutive (s : string) : String.rev (String.rev s) = s.
Proof.
  induction s as [|c s IH]; [done|]. by rewrite rev_cons, rev_snoc, IH.
Qed.

Lemma rev_empty (s : string) : String.rev s = "" → s = "".
Proof. intros H. by rewrite <- (rev_involutive s), H. Qed.

Lemma trimStart_snoc (a : string) (c : ascii) :
  trimStart (a +:+ String c "")
  = match trimStart a with
    | EmptyString => if is_white_space c then "" else String c ""
    | t => t +:+ String c ""
    end.
Proof.
  induction a as [|x a IH]; [done|].
  change (String x a +:+ String c "") with (String x (a +:+ String c "")).
  cbn [trimStart]. by destruct (is_white_space x).
Qed.

(** The recursion that [trimEnd] obeys from the front of the string. *)
Lemma trimEnd_cons (c : ascii) (s : string) :
  trimEnd (String c s)
  = match trimEnd s with
    | EmptyString => if is_white_space c then "" else String c ""
    | t => String c t
    end.
Proof.
  unfold trimEnd. rewrite rev_cons, trimStart_snoc.
  destruct (trimStart (String.rev s)) as [|x t] eqn:Ht.
  - by destruct (is_white_space c).
  - rewrite rev_snoc. cbn [String.rev]. 
    destruct (String.rev (String x t)) eqn:Hr; [|done].
    by apply rev_empty in Hr.
Qed.

Lemma trimStart_first (s : string) :
  ∀ c, Derived.first_char (trimStart s) = Some c → is_white_space c = false.
Proof.
  induction s as [|x s IH]; intros c; cbn [trimStart]; [done|].
  destruct (is_white_space x) eqn:Hx; [apply IH|].
  by intros [= <-].
Qed.

Lemma trimStart_fixed (s : string) :
  (∀ c, Derived.first_char s = Some c → is_white_space c = false) →
  trimStart s = s.
Proof.
  destruct s as [|x s]; [done|]. intros H. cbn [trimStart].
  by rewrite (H x eq_refl).
Qed.

Lemma trimEnd_first (s : string) :
  (∀ c, Derived.first_char s = Some c → is_white_space c = false) →
  Derived.first_char (trimEnd s) = Derived.first_char s.
Proof.
  destruct s as [|x s]; [done|]. intros H. rewrite trimEnd_cons.
  rewrite (H x eq_refl). by destruct (trimEnd s).
Qed.

Lemma trimEnd_last (s : string) :
  ∀ c, Derived.last_char (trimEnd s) = Some c → is_white_space c = false.
Proof.
  induction s as [|x s IH]; intros c; [done|]. rewrite trimEnd_cons.
  destruct (trimEnd s) as [|y t] eqn:Ht.
  - destruct (is_white_space x) eqn:Hx; [done|]. by intros [= <-].
  - intros Hc. apply IH. exact Hc.
Qed.

Lemma trimEnd_idem (s : string) : trimEnd (trimEnd s) = trimEnd s.
Proof.
  unfold trimEnd. rewrite rev_involutive. f_equal.
  apply trimStart_fixed, trimStart_first.
Qed.

Lemma trimStart_empty (s : string) : trimStart s = "" ↔ Derived.all_white s.
Proof.
  induction s as [|x s IH]; [done|]. cbn [trimStart Derived.all_white].
  destruct (is_white_space x); [rewrite IH; tauto|].
  split; [done|]. by intros [? _].
Qed.

Lemma trimEnd_empty (s : string) :
  (∀ c, Derived.first_char s = Some c → is_white_space c = false) →
  trimEnd s = "" → s = "".
Proof.
  destruct s as [|x s]; [done|]. intros H. rewrite trimEnd_cons.
  rewrite (H x eq_refl). by destruct (trimEnd s).
Qed.

Lemma trim_properties (s : string) :
  (∀ c, Derived.first_char (trim s) = Some c → is_white_space c = false) ∧
  (∀ c, Derived.last_char (trim s) = Some c → is_white_space c = false) ∧
  trim (trim s) = trim s ∧
  (trim s = "" ↔ Derived.all_white s).
Proof.
  unfold trim.
  assert (∀ c, Derived.first_char (trimEnd (trimStart s)) = Some c →
               is_white_space c = false) as Hfirst.
  { intros c. rewrite trimEnd_first by apply trimStart_first.
    apply trimStart_first. }
  split; [exact Hfirst|]. split; [apply trimEnd_last|]. split.
  - rewrite (trimStart_fixed _ Hfirst). apply trimEnd_idem.
  - rewrite <- trimStart_empty. split.
    + apply trimEnd_empty, trimStart_first.
    + by intros ->.
Qed.

(** The candidate name stored by [POST /api/sessions] neither begins nor
    ends with white space, and trimming it again changes nothing; it is the
    empty name exactly when the submitted (non-empty) name consists of white
    space only. *)
Theorem stored_name_is_trimmed :
  ∀ (name : string) (clock : Z) (rnd : string) (date : Z)
    (db db' : InMemoryDatabase) (s : ProctoringSession),
    SessionsRoute.POST (Parsed (JString name)) clock rnd date db
    = (Success s, db') →
    (∀ c, Derived.first_char (candidateName s) = Some c →
          is_white_space c = false) ∧
    (∀ c, Derived.last_char (candidateName s) = Some c →
          is_white_space c = false) ∧
    trim (candidateName s) = candidateName s ∧
    (candidateName s = "" ↔ Derived.all_white name) ∧
    getSession (id s) db' = Some s.
Proof.
  intros name clock rnd date db db' s Hpost.
  assert (name ≠ "") as Hname.
  { intros ->. discriminate Hpost. }
  assert (s = (createSession (trim name) clock rnd date db).1 ∧
          db' = (createSession (trim name) clock rnd date db).2) as [-> ->].
  { revert Hpost. unfold SessionsRoute.POST. cbn [truthy is_string].
    rewrite bool_decide_eq_false_2 by done. cbn [negb orb].
    destruct (createSession _ _ _ _ _). by intros [= <- <-]. }
  change (candidateName (createSession (trim name) clock rnd date db).1)
    with (trim name).
  destruct (trim_properties name) as (H1 & H2 & H3 & H4).
  split; [exact H1|]. split; [exact H2|]. split; [exact H3|].
  split; [exact H4|]. apply createSession_stored.
Qed.

Lemma stored_name_is_trimmed_witness :
  ∃ s db',
    SessionsRoute.POST (Parsed (JString "  Jane Doe ")) 1700000000000
      "k3j9x2abc" 1700000000000 db0 = (Success s, db') ∧
    trim (candidateName s) = candidateName s.
Proof.
  eexists _, _. split; [reflexivity|].
  destruct (stored_name_is_trimmed "  Jane Doe " 1700000000000 "k3j9x2abc"
              1700000000000 db0 _ _ eq_refl) as (_ & _ & Htrim & _).
  exact Htrim.
Defined.

(** ** The fallback face detector *)

Lemma skinRatio_nonneg (data : list FaceDetection.Pixel) :
  (0 ≤ FaceDetection.skinRatio data)%Qc.
Proof.
  unfold FaceDetection.skinRatio, Qcle. cbn [this Q2Qc].
  rewrite !Qreduction.Qred_correct. unfold QArith_base.Qle.
  cbn [QArith_base.Qnum QArith_base.Qden]. lia.
Qed.

(** The fallback detector (used when the browser has no face detector) sees
    at most one face, and whenever it reports that the candidate looks away
    it reports no face at the same time; its confidence lies between 0 and
    1.  Fed to the debouncer, its samples therefore never raise a
    multiple-faces call, and a look-away sample never refreshes the time at
    which a face was last seen. *)
Theorem fallback_detector_limits :
  ∀ (data : list FaceDetection.Pixel) (now : Z) (st : FaceDetectionStats),
    data ≠ [] →
    let r := FaceDetection.simpleFaceDetection data in
    (faceCount r = 0 ∨ faceCount r = 1) ∧
    (isLookingAway r = true → faceCount r = 0) ∧
    (0 ≤ confidence r ≤ 1)%Qc ∧
    calls_of multiple_faces (handleFaceDetection now r st).2 = [] ∧
    (isLookingAway r = true →
     lastFaceTime (handleFaceDetection now r st).1 = lastFaceTime st).
Proof.
  intros data now st _ r.
  assert (faceCount r = 0 ∨ faceCount r = 1) as Hcount.
  { subst r. unfold FaceDetection.simpleFaceDetection. cbn [faceCount].
    case_bool_decide; auto. }
  assert (isLookingAway r = true → faceCount r = 0) as Haway.
  { subst r. unfold FaceDetection.simpleFaceDetection.
    cbn [faceCount isLookingAway].
    rewrite andb_true_iff, !bool_decide_eq_true. intros [_ Hlt].
    rewrite bool_decide_eq_false_2; [done|]. intros Hgt.
    pose proof (Qclt_trans _ _ _ Hgt Hlt) as Habs.
    vm_compute in Habs. discriminate Habs. }
  split; [exact Hcount|]. split; [exact Haway|]. split.
  { subst r. unfold FaceDetection.simpleFaceDetection. cbn [confidence].
    case_bool_decide as Hlt.
    - split; [|by apply Qclt_le_weak].
      replace 0%Qc with (0 * Q2Qc (QArith_base.Qmake 10 1))%Qc
        by (apply Qc_is_canon; reflexivity).
      apply Qcmult_le_compat_r; [apply skinRatio_nonneg|].
      vm_compute. discriminate.
    - split; [vm_compute; discriminate|apply Qcle_refl]. }
  split.
  - unfold handleFaceDetection, calls_of. cbn [snd].
    assert ((faceCount r >? 1) = false) as ->.
    { rewrite Z.gtb_ltb. apply Z.ltb_ge. lia. }
    by repeat case_match.
  - intros Hr. rewrite handle_lastFaceTime, (Haway Hr). reflexivity.
Qed.

Lemma fallback_detector_limits_witness :
  let data := replicate 3 (FaceDetection.mkPixel 200 120 90)
              ++ replicate 197 (FaceDetection.mkPixel 10 10 10) in
  isLookingAway (FaceDetection.simpleFaceDetection data) = false ∧
  calls_of multiple_faces
    (handleFaceDetection 1700000000000 (FaceDetection.simpleFaceDetection data)
       (initialStats 1699999999000)).2 = [].
Proof.
  intros data. split; [reflexivity|].
  destruct (fallback_detector_limits data 1700000000000
              (initialStats 1699999999000) ltac:(discriminate))
    as (_ & _ & _ & Hmulti & _).
  exact Hmulti.
Defined.

(** ** Durations on the dashboard *)






(** The dashboard cuts a duration down to whole seconds while the report
    rounds it to the nearest second, so for the same session and the same
    clock the report shows the dashboard's number of seconds or one more. *)
Theorem dashboard_and_report_durations_agree :
  ∀ (sid : string) (db : InMemoryDatabase) (s : ProctoringSession)
    (clock : Z),
    getSession sid db = Some s →
    ∃ d, stats_duration sid clock db = Some d ∧
         Dashboard.duration_seconds (startTime s) (endTime s) clock ≤ d
         ≤ Dashboard.duration_seconds (startTime s) (endTime s) clock + 1.
Proof.
  intros sid db s clock Hs. unfold getSession in Hs.
  unfold stats_duration, Dashboard.duration_seconds, round_div. rewrite Hs.
  change (2 * 1000) with 2000.
  eexists. split; [reflexivity|].
  set (ms := match endTime s with
             | Some e => e - startTime s
             | None => clock - startTime s
             end).
  assert (match endTime s with Some e => e | None => clock end - startTime s
          = ms) as -> by (subst ms; by destruct (endTime s)).
  pose proof (Z.div_mod ms 1000 ltac:(lia)).
  pose proof (Z.mod_pos_bound ms 1000 ltac:(lia)).
  pose proof (Z.div_mod (2 * ms + 1000) 2000 ltac:(lia)).
  pose proof (Z.mod_pos_bound (2 * ms + 1000) 2000 ltac:(lia)).
  lia.
Qed.

Lemma dashboard_and_report_durations_agree_witness :
  ∃ d, stats_duration Examples.jane_id 1700000001500 Examples.jane_db = Some d ∧
       Dashboard.duration_seconds 1700000000000 None 1700000001500 ≤ d.
Proof.
  destruct (dashboard_and_report_durations_agree Examples.jane_id
              Examples.jane_db Examples.jane 1700000001500 eq_refl)
    as (d & Hd & Hle & _).
  exists d. split; [exact Hd|exact Hle].
Defined.

(** ** The label of the score *)

(** The label that the report page prints next to the score and the tier
    line that the report routes put first in the recommendations always name
    the same band: "Excellent" from 90, "Good" from 70, "Moderate" from 50
    and "Significant" below; the colour of the score is green from 90,
    yellow from 70 and red below. *)
Theorem score_label_matches_tier_line :
  ∀ stats : SessionStats,
    let score := integrityScore (session stats) in
    let line := head (ReportRoute.generateRecommendations stats) in
    (90 ≤ score ∧ SessionReport.integrity_label score = "Excellent Integrity" ∧
     SessionReport.getIntegrityScoreColor score = "text-green-600" ∧
     line = Some "Excellent interview integrity maintained throughout the session.")
    ∨ (70 ≤ score < 90 ∧
       SessionReport.integrity_label score = "Good Integrity" ∧
       SessionReport.getIntegrityScoreColor score = "text-yellow-600" ∧
       line = Some "Good overall performance with minor integrity concerns.")
    ∨ (50 ≤ score < 70 ∧
       SessionReport.integrity_label score = "Moderate Concerns" ∧
       SessionReport.getIntegrityScoreColor score = "text-red-600" ∧
       line = Some "Moderate integrity issues detected. Review flagged events.")
    ∨ (score < 50 ∧
       SessionReport.integrity_label score = "Significant Issues" ∧
       SessionReport.getIntegrityScoreColor score = "text-red-600" ∧
       line = Some "Significant integrity concerns. Manual review strongly recommended.").
Proof.
  intros stats score line. subst line.
  rewrite generateRecommendations_spec. fold score.
  unfold Spec.recommend. cbn [app head].
  unfold SessionReport.integrity_label, SessionReport.getIntegrityScoreColor,
    Spec.tier_message.
  destruct (Z.leb_spec 90 score) as [H90|H90].
  - left. rewrite (proj2 (Z.geb_le score 90)) by done.
    by rewrite decide_True.
  - assert ((score >=? 90) = false) as ->
      by (rewrite Z.geb_leb; apply Z.leb_gt; lia).
    rewrite (decide_False (P := 90 ≤ score)) by lia.
    destruct (Z.leb_spec 70 score) as [H70|H70].
    + right; left. rewrite (proj2 (Z.geb_le score 70)) by done.
      by rewrite decide_True.
    + assert ((score >=? 70) = false) as ->
        by (rewrite Z.geb_leb; apply Z.leb_gt; lia).
      rewrite (decide_False (P := 70 ≤ score)) by lia.
      destruct (Z.leb_spec 50 score) as [H50|H50].
      * right; right; left. rewrite (proj2 (Z.geb_le score 50)) by done.
        by rewrite decide_True.
      * assert ((score >=? 50) = false) as ->
          by (rewrite Z.geb_leb; apply Z.leb_gt; lia).
        rewrite (decide_False (P := 50 ≤ score)) by lia.
        right; right; right. done.
Qed.
